(** * HotstarMonitor: episode extraction, subscription store and poll cycle

    A shallow embedding of [src/tamilmvbot/hotstar_handler.py].

    Python strings are modelled as lists of characters ([list ascii]); the
    model is exact for ASCII text, which is what show URLs, episode ids and
    chat ids consist of.  The network and the HTML parser are outside the
    program: a page fetch is an input of the model (either a fault or the
    list of anchors that [soup.find_all('a', href=True)] yields). *)

From Stdlib Require Import Ascii String DecimalString DecimalNat.
From stdpp Require Import base list strings.

Open Scope list_scope.

(** ** Python string primitives *)

Module PyStr.

Abbreviation str := (list ascii).

(** A literal: [py "watch"] is the Python string ['watch']. *)
Definition py (s : string) : str := list_ascii_of_string s.

(** [s.startswith(p)] *)
Fixpoint startswith (p s : str) : bool :=
  match p, s with
  | [], _ => true
  | _ :: _, [] => false
  | a :: p', b :: s' => if decide (a = b) then startswith p' s' else false
  end.

(** [sub in s] for strings: [sub] occurs as a contiguous substring. *)
Fixpoint contains (sub s : str) : bool :=
  startswith sub s ||
  match s with
  | [] => false
  | _ :: s' => contains sub s'
  end.

(** [s.split(sep)] for a one-character separator; never returns the empty
    list ([''.split('/') == ['']]). *)
Fixpoint split (sep : ascii) (s : str) : list str :=
  match s with
  | [] => [[]]
  | c :: s' =>
      if decide (c = sep) then [] :: split sep s'
      else match split sep s' with
           | p :: ps => (c :: p) :: ps
           | [] => [[c]]
           end
  end.

(** [s.lstrip(c)], [s.rstrip(c)] and [s.strip(c)] for a one-character set. *)
Fixpoint lstrip (c : ascii) (s : str) : str :=
  match s with
  | [] => []
  | x :: s' => if decide (x = c) then lstrip c s' else s
  end.

Fixpoint rstrip (c : ascii) (s : str) : str :=
  match s with
  | [] => []
  | x :: s' =>
      match rstrip c s' with
      | [] => if decide (x = c) then [] else [x]
      | r => x :: r
      end
  end.

Definition strip (c : ascii) (s : str) : str := rstrip c (lstrip c s).

(** Character classes (ASCII). *)
Definition is_digit (c : ascii) : bool :=
  let n := nat_of_ascii c in (48 <=? n) && (n <=? 57).

Definition is_upper (c : ascii) : bool :=
  let n := nat_of_ascii c in (65 <=? n) && (n <=? 90).

Definition is_lower (c : ascii) : bool :=
  let n := nat_of_ascii c in (97 <=? n) && (n <=? 122).

Definition to_upper (c : ascii) : ascii :=
  if is_lower c then ascii_of_nat (nat_of_ascii c - 32) else c.

Definition to_lower (c : ascii) : ascii :=
  if is_upper c then ascii_of_nat (nat_of_ascii c + 32) else c.

(** [s.isdigit()]: at least one character and all of them digits. *)
Definition isdigit (s : str) : bool :=
  match s with
  | [] => false
  | _ => forallb is_digit s
  end.

(** [s.replace(a, b)] for one-character [a] and [b]. *)
Definition replace (a b : ascii) (s : str) : str :=
  map (fun c => if decide (c = a) then b else c) s.

(** [s.title()]: a letter that follows a letter is lower-cased, any other
    letter is upper-cased. *)
Fixpoint title_from (prev_cased : bool) (s : str) : str :=
  match s with
  | [] => []
  | c :: s' =>
      if is_lower c || is_upper c
      then (if prev_cased then to_lower c else to_upper c) :: title_from true s'
      else c :: title_from false s'
  end.

Definition title (s : str) : str := title_from false s.

(** [l[-1 - k]] for a list: [None] where Python raises [IndexError]. *)
Definition from_end {A} (k : nat) (l : list A) : option A := rev l !! k.

(** [str(n)] for a natural number. *)
Definition str_of_nat (n : nat) : str :=
  py (NilEmpty.string_of_uint (Nat.to_uint n)).

(** Truth value of a string: the empty string is falsy. *)
Definition nonempty (s : str) : bool :=
  match s with [] => false | _ => true end.

End PyStr.

Import PyStr.

(** ** The monitor *)

Module Hotstar.

(** An episode dictionary [{'id': .., 'link': .., 'title': ..}]. *)
Record episode := Episode { ep_id : str; ep_link : str; ep_title : str }.

(** An anchor element with an [href] attribute, as [soup.find_all] yields
    it: the attribute value and [link.get_text(strip=True)]. *)
Record anchor := Anchor { href : str; text : str }.

(** What [requests.get] followed by [BeautifulSoup(...)] produces: an
    exception (timeout, connection error, bad status, parser fault) or the
    anchors of the parsed document. *)
Inductive page :=
| Fault
| Document (links : list anchor).

(** [time.time()]; the program stores it and never computes with it. *)
Definition timestamp := Z.

(** One value of [self.subscriptions].  [initialized] is [None] when the
    key is missing from a record loaded from disk ([data.get('initialized',
    True)] covers that case). *)
Record subscription := Subscription {
  subscribers : list str;
  known_episodes : list str;
  last_check : timestamp;
  title : str;
  initialized : option bool
}.

(** [self.subscriptions]: a Python dict, iterated in insertion order. *)
Definition store := list (str * subscription).

Definition with_subscribers (v : list str) (d : subscription) : subscription :=
  Subscription v (known_episodes d) (last_check d) (title d) (initialized d).

Definition with_known_episodes (v : list str) (d : subscription) : subscription :=
  Subscription (subscribers d) v (last_check d) (title d) (initialized d).

Definition with_initialized (v : bool) (d : subscription) : subscription :=
  Subscription (subscribers d) (known_episodes d) (last_check d) (title d) (Some v).

(** [self.subscriptions[url]] and [url in self.subscriptions]. *)
Fixpoint get_sub (url : str) (subs : store) : option subscription :=
  match subs with
  | [] => None
  | (k, d) :: rest => if decide (k = url) then Some d else get_sub url rest
  end.

(** In-place update of the record stored under [url]. *)
Fixpoint set_sub (url : str) (d' : subscription) (subs : store) : store :=
  match subs with
  | [] => []
  | (k, d) :: rest =>
      if decide (k = url) then (k, d') :: rest else (k, d) :: set_sub url d' rest
  end.

(** *** scrape_episodes *)

Definition origin : str := py "https://www.hotstar.com".

(** [href.split('/')[-1]] *)
Definition last_piece (h : str) : str := default [] (from_end 0 (split "/" h)).

(** The test of line 116:
    ['watch' in href or (href.split('/')[-1].isdigit()
                        and len(href.split('/')[-1]) > 5)] *)
Definition qualifies (h : str) : bool :=
  contains (py "watch") h
  || (isdigit (last_piece h) && (5 <? length (last_piece h))).

(** [href if href.startswith('http') else f"https://www.hotstar.com{href}"] *)
Definition full_link (h : str) : str :=
  if startswith (py "http") h then h else origin ++ h.

(** [u.strip('/').split('/')]: the pieces of [u] between slashes. *)
Definition segments (u : str) : list str := split "/" (strip "/" u).

(** [parts = full_link.strip('/').split('/')] *)
Definition link_parts (h : str) : list str := segments (full_link h).

(** Lines 122-124: the last part, or the one before it when the last part
    is ['watch'] and there is more than one part. *)
Definition parts_ep_id (parts : list str) : str :=
  let last := default [] (from_end 0 parts) in
  if bool_decide (last = py "watch") && (1 <? length parts)
  then default [] (from_end 1 parts)
  else last.

(** Lines 131-145: the title of a retained link. *)
Definition link_title (txt : str) (parts : list str) (id : str) : str :=
  let t1 :=
    if nonempty txt then txt
    else if 3 <=? length parts then
           let slug := default [] (from_end 2 parts) in
           if bool_decide (slug <> py "shows")
           then PyStr.title (replace "-" " " slug)
           else txt
         else txt in
  if nonempty t1 then t1 else py "Episode " ++ id.

(** The filter of line 127: [not ep_id.isdigit() or len(ep_id) < 8]. *)
Definition discarded (id : str) : bool := negb (isdigit id) || (length id <? 8).

(** One iteration of the loop over the links: the appended episode, or
    [None] when the link is skipped. *)
Definition scan_link (a : anchor) : option episode :=
  if qualifies (href a) then
    let parts := link_parts (href a) in
    let id := parts_ep_id parts in
    if discarded id then None
    else Some (Episode id (full_link (href a)) (link_title (text a) parts id))
  else None.

(** [d[k] = v] on a dict kept in insertion order. *)
Fixpoint dict_set (k : str) (v : episode) (d : list (str * episode)) : list (str * episode) :=
  match d with
  | [] => [(k, v)]
  | (k', v') :: d' =>
      if decide (k' = k) then (k', v) :: d' else (k', v') :: dict_set k v d'
  end.

(** [list({e['id']: e for e in episodes}.values())] *)
Definition unique_episodes (episodes : list episode) : list episode :=
  map snd (fold_left (fun d e => dict_set (ep_id e) e d) episodes []).

Definition scrape_episodes (p : page) : option (list episode) :=
  match p with
  | Fault => None
  | Document links => Some (unique_episodes (omap scan_link links))
  end.

(** [self.scrape_episodes] with the state of the remote site fixed. *)
Definition scrape_via (web : str -> page) (url : str) : option (list episode) :=
  scrape_episodes (web url).

(** *** extract_title *)

Definition extract_title (url : str) : str :=
  let parts := segments url in
  match list_find (fun p => p = py "shows") parts with
  | Some (idx, _) =>
      match parts !! (idx + 1) with
      | Some p => PyStr.title (replace "-" " " p)
      | None => py "Unknown Show"
      end
  | None => py "Unknown Show"
  end.

(** *** Effects

    The trace records what a call does besides computing its result: the
    page requests, the in-memory mutations of the store, and the lock and
    file operations of [save_data]. *)

Inductive event :=
| EvScrape (url : str)
| EvMutate (url : str)
| EvAcquire
| EvWrite (snapshot : store)
| EvRelease.

(** [save_data]: [with self.lock:] around the whole-file write.  A failed
    write is logged and swallowed, so the call has no other outcome. *)
Definition save_data (subs : store) : list event :=
  [EvAcquire; EvWrite subs; EvRelease].

(** *** add_show *)

Definition add_show (scrape : str -> option (list episode)) (now : timestamp)
    (chat_id url : str) (subs : store) : (bool * str) * store * list event :=
  if negb (contains (py "hotstar.com") url) then
    ((false, py "Invalid URL. Please provide a valid Hotstar show URL."), subs, [])
  else
    match get_sub url subs with
    | Some data =>
        if bool_decide (chat_id ∉ subscribers data) then
          let subs' := set_sub url (with_subscribers (subscribers data ++ [chat_id]) data) subs in
          ((true, py "Added to existing monitor list."), subs',
           EvMutate url :: save_data subs')
        else
          ((false, py "You are already monitoring this show."), subs, [])
    | None =>
        let episodes := scrape url in
        let known :=
          match episodes with
          | None => []
          | Some eps => map ep_id eps
          end in
        let status_msg :=
          match episodes with
          | None => py "Warning: Could not fetch current episodes. Will try again later."
          | Some eps => py "Found " ++ str_of_nat (length eps) ++ py " existing episodes."
          end in
        let subs' :=
          subs ++ [(url, Subscription [chat_id] known now (extract_title url)
                           (Some (bool_decide (episodes <> None))))] in
        ((true, py "Started monitoring. " ++ status_msg), subs',
         EvScrape url :: EvMutate url :: save_data subs')
    end.

(** *** check_updates *)

(** A queued message: [{'chat_id': subscriber, 'text': ...}].  The text is
    the f-string of line 191 over the show title, the episode title and the
    episode link. *)
Record notification := Notification {
  chat_id : str;
  show : str;
  episode_title : str;
  episode_link : str
}.

(** Python truth value of [current_episodes]: [None] and [[]] are falsy. *)
Definition truthy {A} (r : option (list A)) : bool :=
  match r with
  | Some (_ :: _) => true
  | _ => false
  end.

(** [[e for e in current_episodes if e['id'] not in known_ids]] *)
Definition new_episodes (known_ids : list str) (current : list episode) : list episode :=
  filter (fun e => ep_id e ∉ known_ids) current.

(** The two nested loops of lines 187-192. *)
Definition notifications_for (data : subscription) (new : list episode) : list notification :=
  flat_map (fun subscriber =>
              map (fun ep => Notification subscriber (title data) (ep_title ep) (ep_link ep)) new)
           (subscribers data).

(** The body of the loop of [check_updates] for one [(url, data)] item,
    given the result of the scrape.  [persist] is [self.save_data] seen
    from this item: it maps the item's record to the trace of writing the
    whole store. *)
Definition check_one (persist : subscription -> list event) (url : str)
    (data : subscription) (current_episodes : option (list episode))
    : subscription * list notification * list event :=
  let was_initialized := default true (initialized data) in
  if truthy current_episodes then
    let new := new_episodes (known_episodes data) (default [] current_episodes) in
    match new with
    | [] => (data, [], [])
    | _ :: _ =>
        let data1 := with_known_episodes (known_episodes data ++ map ep_id new) data in
        let appends := map (fun _ => EvMutate url) new in
        if was_initialized then
          (data1, notifications_for data1 new, appends ++ persist data1)
        else
          let data2 := with_initialized true data1 in
          (data2, [], appends ++ EvMutate url :: persist data2)
    end
  else (data, [], []).

(** The loop over [self.subscriptions.items()]: [done] holds the items
    already visited, [todo] the remaining ones. *)
Fixpoint check_loop (scrape : str -> option (list episode)) (done todo : store)
    : store * list notification * list event :=
  match todo with
  | [] => (done, [], [])
  | (url, data) :: rest =>
      let persist := fun d => save_data (done ++ (url, d) :: rest) in
      let '(data', ns, evs) := check_one persist url data (scrape url) in
      let '(subs', ns', evs') := check_loop scrape (done ++ [(url, data')]) rest in
      (subs', ns ++ ns', EvScrape url :: evs ++ evs')
  end.

(** [check_updates]: the store after the call, the messages handed to the
    bot, and the trace. *)
Definition check_updates (scrape : str -> option (list episode)) (subs : store)
    : store * list notification * list event :=
  check_loop scrape [] subs.

(** The record and the messages that one loop iteration leaves for an
    item, read off [check_one]; the trace is dropped. *)
Definition checked (data : subscription) (current_episodes : option (list episode))
    : subscription :=
  (check_one (fun _ => []) [] data current_episodes).1.1.

Definition notified (data : subscription) (current_episodes : option (list episode))
    : list notification :=
  (check_one (fun _ => []) [] data current_episodes).1.2.

Definition tick_item (scrape : str -> option (list episode)) (item : str * subscription)
    : str * subscription :=
  (item.1, checked item.2 (scrape item.1)).

Definition tick_messages (scrape : str -> option (list episode)) (item : str * subscription)
    : list notification :=
  notified item.2 (scrape item.1).

(** A sequence of [check_updates] calls, each with its own state of the
    remote site. *)
Fixpoint run_ticks (scrapes : list (str -> option (list episode))) (subs : store) : store :=
  match scrapes with
  | [] => subs
  | scrape :: later => run_ticks later (check_updates scrape subs).1.1
  end.

End Hotstar.

Import Hotstar.

(** ** The specification's wording, for comparison with the code *)

Module Spec.

(** [sub] occurs in [s] as a contiguous substring. *)
Definition substring (sub s : str) : Prop := exists pre post, s = pre ++ sub ++ post.





(** Section 5 as written: every in-memory mutation of the store and every
    file write happens while the lock is held.  [held] is the state of the
    lock before the trace. *)
Fixpoint mutations_locked (held : bool) (tr : list event) : bool :=
  match tr with
  | [] => true
  | EvAcquire :: tr' => mutations_locked true tr'
  | EvRelease :: tr' => mutations_locked false tr'
  | EvMutate _ :: tr' => held && mutations_locked held tr'
  | EvWrite _ :: tr' => held && mutations_locked held tr'
  | EvScrape _ :: tr' => mutations_locked held tr'
  end.

(** What the lock does guard: the lock is taken when free and released when
    held, every file write happens while it is held, every in-memory
    mutation and every page request happens while it is free, and it is
    free at the end. *)
Fixpoint lock_guards_writes_only (held : bool) (tr : list event) : bool :=
  match tr with
  | [] => negb held
  | EvAcquire :: tr' => negb held && lock_guards_writes_only true tr'
  | EvRelease :: tr' => held && lock_guards_writes_only false tr'
  | EvWrite _ :: tr' => held && lock_guards_writes_only held tr'
  | EvMutate _ :: tr' => negb held && lock_guards_writes_only held tr'
  | EvScrape _ :: tr' => negb held && lock_guards_writes_only held tr'
  end.

(** The page requests of a trace. *)
Definition requests (tr : list event) : list str :=
  omap (fun e => match e with EvScrape u => Some u | _ => None end) tr.

End Spec.

Import Spec.

(** ** Notions used to state properties of the store and of the traces *)

Module Wf.

(** A store as a Python dict holds it: no key twice; and no chat id twice
    among the subscribers, no episode id twice among the known episodes. *)
Definition store_wf (subs : store) : Prop :=
  NoDup subs.*1
  /\ forall url d, (url, d) ∈ subs ->
       NoDup (subscribers d) /\ NoDup (known_episodes d).

(** The store that the last file write of a trace carried. *)
Fixpoint last_write (tr : list event) : option store :=
  match tr with
  | [] => None
  | e :: tr' =>
      match last_write tr' with
      | Some snapshot => Some snapshot
      | None => match e with EvWrite snapshot => Some snapshot | _ => None end
      end
  end.

(** The value that [check_updates] reads as [initialized]. *)
Definition counts_as_initialized (d : subscription) : bool :=
  default true (initialized d).

End Wf.

Import Wf.

(** ** The chat front end ([angel.py]) *)

Module Angel.

(** Whitespace as [str.split()] and [str.strip()] see it (ASCII range). *)
Definition is_space (c : ascii) : bool :=
  let n := nat_of_ascii c in
  ((9 <=? n) && (n <=? 13)) || ((28 <=? n) && (n <=? 32)).

(** [s.split()]: the maximal runs of non-whitespace characters. *)
Fixpoint split_ws (s : str) : list str :=
  match s with
  | [] => []
  | c :: s' =>
      if is_space c then split_ws s'
      else match s' with
           | [] => [[c]]
           | c' :: _ =>
               if is_space c' then [c] :: split_ws s'
               else match split_ws s' with
                    | w :: ws => (c :: w) :: ws
                    | [] => [[c]]
                    end
           end
  end.

(** [s.strip()] *)
Fixpoint lstrip_ws (s : str) : str :=
  match s with
  | [] => []
  | c :: s' => if is_space c then lstrip_ws s' else s
  end.

Fixpoint rstrip_ws (s : str) : str :=
  match s with
  | [] => []
  | c :: s' =>
      match rstrip_ws s' with
      | [] => if is_space c then [] else [c]
      | r => c :: r
      end
  end.

Definition strip_ws (s : str) : str := rstrip_ws (lstrip_ws s).

Definition newline : ascii := "010"%char.

Definition double_quote : ascii := "034"%char.

(** *** monitor_handler *)



(** *** makeKeyboard and callback_query *)

(** [real_dict]: a dict from a movie title to the messages about it. *)
Definition details_dict := list (str * list str).

Fixpoint dict_put (k : str) (v : list str) (d : details_dict) : details_dict :=
  match d with
  | [] => [(k, v)]
  | (k', v') :: d' =>
      if decide (k' = k) then (k', v) :: d' else (k', v') :: dict_put k v d'
  end.

Fixpoint dict_get (k : str) (d : details_dict) : option (list str) :=
  match d with
  | [] => None
  | (k', v) :: d' => if decide (k' = k) then Some v else dict_get k d'
  end.

(** [enumerate(l)], counting from [start]. *)
Fixpoint enumerate_from {A} (start : nat) (l : list A) : list (nat * A) :=
  match l with
  | [] => []
  | x :: l' => (start, x) :: enumerate_from (S start) l'
  end.

(** An inline button: its caption and its [callback_data]. *)
Record button := Button { caption : str; callback_data : str }.

Definition makeKeyboard (movie_list : list str) : list button :=
  map (fun '(key, value) => Button value (str_of_nat key)) (enumerate_from 0 movie_list).

(** [callback_query]: the texts sent to the chat for the pressed button's
    [call.data], given the globals [movie_list] and [real_dict]. *)
Definition callback_query (movie_list : list str) (real_dict : details_dict)
    (data : str) : list str :=
  flat_map (fun '(key, value) =>
              if decide (data = str_of_nat key) then
                match dict_get value real_dict with
                | Some messages => messages
                | None => []
                end
              else [])
           (enumerate_from 0 movie_list).

(** *** get_movie_details *)

(** An anchor with an [href] on a movie page, and its [data-fileext]
    attribute when it has one. *)
Record detail_anchor := DetailAnchor { da_href : str; da_fileext : option str }.

(** The movie page: a fault of the request or of the parser, or the
    anchors that carry an [href] and the text of the first [h1]. *)
Inductive detail_page :=
| DetailFault
| DetailDoc (anchors : list detail_anchor) (h1 : option str).

(** The message of lines 185-200 for one magnet link.  [torrent] is the
    final [torrent_link]; [None] and the empty string are falsy. *)
Definition movie_message (movie_title mag : str) (torrent : option str) : str :=
  newline :: py "<b>📂 Movie Title:</b>" ++ newline
    :: py "<blockquote>" ++ movie_title ++ py "</blockquote>" ++ newline
    :: newline
    :: py "🧲 <b>Magnet Link:</b>" ++ newline
    :: py "<pre>" ++ mag ++ py "</pre>" ++ newline
    :: match torrent with
       | Some (c :: t) =>
           newline :: py "📥 <b>Download Torrent:</b>" ++ newline
             :: py "<a href=" ++ double_quote :: (c :: t) ++ double_quote
             :: py ">🔗 Click Here</a>" ++ [newline]
       | _ =>
           newline :: py "📥 <b>Torrent File:</b> Not Available" ++ [newline]
       end.

(** Lines 181-183: the torrent link that goes with the magnet at position
    [p]; a non-empty relative link is prefixed with [TAMILMV_URL]. *)
Definition torrent_for (base : str) (filelink : list str) (p : nat) : option str :=
  match filelink !! p with
  | Some t =>
      if nonempty t && negb (startswith (py "http") t) then Some (base ++ t) else Some t
  | None => None
  end.

(** [get_movie_details]; [base] is [TAMILMV_URL]. *)
Definition get_movie_details (base : str) (page : detail_page) : list str :=
  match page with
  | DetailFault => []
  | DetailDoc anchors h1 =>
      let mag :=
        map da_href (filter (fun a => contains (py "magnet:") (da_href a) = true) anchors) in
      let filelink :=
        map da_href (filter (fun a => da_fileext a = Some (py "torrent")) anchors) in
      let movie_title :=
        match h1 with
        | Some t => strip_ws t
        | None => py "Unknown Title"
        end in
      map (fun '(p, m) => movie_message movie_title m (torrent_for base filelink p))
          (enumerate_from 0 mag)
  end.

(** *** tamilmv *)

(** An anchor inside a listing block: its text and its [href], if any. *)
Record listing_anchor := ListingAnchor { la_text : str; la_href : option str }.

(** The front page: a fault, or the anchors of each
    [div.ipsType_break.ipsContained] block. *)
Inductive listing_page :=
| ListingFault
| Listing (temps : list (list listing_anchor)).

(** Lines 152-153: title and link of a block; [None] where the code raises
    ([IndexError] without an anchor, [KeyError] without an [href]). *)
Definition listing_entry (block : list listing_anchor) : option (str * str) :=
  match block with
  | [] => None
  | a :: _ =>
      match la_href a with
      | Some link => Some (strip_ws (la_text a), link)
      | None => None
      end
  end.

(** The loop of lines 151-157 over the blocks still to visit. *)
Fixpoint tamilmv_loop (details : str -> list str) (blocks : list (list listing_anchor))
    (movie_list : list str) (real_dict : details_dict)
    : option (list str * details_dict) :=
  match blocks with
  | [] => Some (movie_list, real_dict)
  | block :: rest =>
      match listing_entry block with
      | None => None
      | Some (title, link) =>
          tamilmv_loop details rest (movie_list ++ [title])
            (dict_put title (details link) real_dict)
      end
  end.

(** [tamilmv]; [details link] is [get_movie_details(link)]. *)
Definition tamilmv (details : str -> list str) (page : listing_page)
    : list str * details_dict :=
  match page with
  | ListingFault => ([], [])
  | Listing temps =>
      if length temps <? 15 then ([], [])
      else match tamilmv_loop details (take 15 temps) [] [] with
           | Some result => result
           | None => ([], [])
           end
  end.

End Angel.

Import Angel.

(** ** Sample data *)

Definition show_url : str := py "https://www.hotstar.com/in/shows/bhargavi-ll-b/1271396039".

Definition ep1 : episode :=
  Episode (py "12345678") (py "https://www.hotstar.com/a/12345678/watch") (py "One").
Definition ep2 : episode :=
  Episode (py "23456789") (py "https://www.hotstar.com/b/23456789/watch") (py "Two").
Definition ep3 : episode :=
  Episode (py "34567890") (py "https://www.hotstar.com/c/34567890/watch") (py "Three").

(** A subscription as [add_show] leaves it after a failed seed scrape. *)
Definition pending : subscription :=
  Subscription [py "7"] [] 0%Z (py "Bhargavi Ll B") (Some false).

(** A subscription that knows [ep1] and [ep2]. *)
Definition caught_up : subscription :=
  Subscription [py "7"; py "8"] [ep_id ep1; ep_id ep2] 0%Z (py "Bhargavi Ll B") (Some true).

(** ** Checks on concrete inputs *)

Example split_abs :
  split "/" (py "https://x.com/a/1/watch")
  = [py "https:"; py ""; py "x.com"; py "a"; py "1"; py "watch"].
Proof. vm_compute. reflexivity. Qed.

Example strip_both : strip "/" (py "//a/b//") = py "a/b".
Proof. vm_compute. reflexivity. Qed.

Example title_slug :
  PyStr.title (replace "-" " " (py "arjuns-support-for-bhargavi"))
  = py "Arjuns Support For Bhargavi".
Proof. vm_compute. reflexivity. Qed.

Example str_of_nat_12 : str_of_nat 12 = py "12".
Proof. vm_compute. reflexivity. Qed.

Example extract_title_show : extract_title show_url = py "Bhargavi Ll B".
Proof. vm_compute. reflexivity. Qed.

Example scan_watch_link :
  scan_link (Anchor (py "/in/shows/x/arjuns-support/1641016181/watch") [])
  = Some (Episode (py "1641016181")
            (py "https://www.hotstar.com/in/shows/x/arjuns-support/1641016181/watch")
            (py "Arjuns Support")).
Proof. vm_compute. reflexivity. Qed.

Example subscribe_then_tick :
  let '(r, s1, _) := add_show (fun _ => Some [ep1; ep2]) 0%Z (py "7") show_url [] in
  let '(s2, ns, _) := check_updates (fun _ => Some [ep1; ep2; ep3]) s1 in
  r = (true, py "Started monitoring. Found 2 existing episodes.")
  /\ ns = [Notification (py "7") (py "Bhargavi Ll B") (py "Three") (ep_link ep3)]
  /\ (known_episodes <$> get_sub show_url s2) = Some [ep_id ep1; ep_id ep2; ep_id ep3].
Proof. vm_compute. repeat split; reflexivity. Qed.


(** Two recipients of one show both get the message for a new episode. *)
Example two_recipients_one_episode :
  (check_updates (fun _ => Some [ep1; ep2; ep3]) [(show_url, caught_up)]).1.2
  = [Notification (py "7") (py "Bhargavi Ll B") (py "Three") (ep_link ep3);
     Notification (py "8") (py "Bhargavi Ll B") (py "Three") (ep_link ep3)].
Proof. vm_compute. reflexivity. Qed.

(** Two links to one episode give one entry, with the title seen last. *)
Example scrape_deduplicates :
  scrape_episodes
    (Document [Anchor (py "/in/shows/x/ep-one/12345678/watch") (py "First");
               Anchor (py "/in/shows/x/42") (py "Season 42");
               Anchor (py "/in/shows/x/ep-one/12345678") (py "Again")])
  = Some [Episode (py "12345678")
            (py "https://www.hotstar.com/in/shows/x/ep-one/12345678") (py "Again")].
Proof. vm_compute. reflexivity. Qed.

(** A second subscriber is appended to the record and the store is saved. *)
Example add_second_subscriber :
  add_show (fun _ => None) 0%Z (py "9") show_url [(show_url, caught_up)]
  = ((true, py "Added to existing monitor list."),
     [(show_url, with_subscribers [py "7"; py "8"; py "9"] caught_up)],
     EvMutate show_url
       :: save_data [(show_url, with_subscribers [py "7"; py "8"; py "9"] caught_up)]).
Proof. vm_compute. reflexivity. Qed.

(** ** Facts about the string primitives *)

Section StringFacts.

Implicit Types (s t p sub : str) (c sep : ascii).














End StringFacts.

(** ** The episode extractor *)

Section Extractor.

Implicit Types (h : str) (a : anchor).










End Extractor.

(** ** Claims about the extractor *)







(** ** One iteration of the poll loop *)

Section CheckOne.

Implicit Types (data : subscription) (cur : option (list episode)).

Lemma check_one_result persist url data cur :
  (check_one persist url data cur).1 = (checked data cur, notified data cur).
Proof.
  unfold checked, notified, check_one.
  destruct (truthy cur); [|reflexivity].
  destruct (new_episodes (known_episodes data) (default [] cur)); [reflexivity|].
  destruct (default true (initialized data)); reflexivity.
Qed.

(** The three outcomes of an iteration. *)
Lemma checked_cases data cur :
  let new := new_episodes (known_episodes data) (default [] cur) in
  (checked data cur = data /\ notified data cur = []
   /\ (truthy cur = false \/ new = []))
  \/ (truthy cur = true /\ new <> [] /\ default true (initialized data) = true
      /\ checked data cur
         = with_known_episodes (known_episodes data ++ map ep_id new) data
      /\ notified data cur = notifications_for (checked data cur) new)
  \/ (truthy cur = true /\ new <> [] /\ default true (initialized data) = false
      /\ checked data cur
         = with_initialized true
             (with_known_episodes (known_episodes data ++ map ep_id new) data)
      /\ notified data cur = []).
Proof.
  intros new. subst new. unfold checked, notified, check_one.
  destruct (truthy cur); [|left; auto].
  destruct (new_episodes (known_episodes data) (default [] cur)) as [|e new] eqn:E;
    [left; auto|].
  destruct (default true (initialized data)); [right; left | right; right];
    repeat split; try reflexivity; discriminate.
Qed.

Lemma checked_skip data cur : truthy cur = false -> checked data cur = data.
Proof. intros H. unfold checked, check_one. rewrite H. reflexivity. Qed.

Lemma notified_skip data cur : truthy cur = false -> notified data cur = [].
Proof. intros H. unfold notified, check_one. rewrite H. reflexivity. Qed.


(** Frame: an iteration touches [known_episodes] and [initialized] only. *)
Lemma checked_frame data cur :
  subscribers (checked data cur) = subscribers data
  /\ title (checked data cur) = title data
  /\ last_check (checked data cur) = last_check data.
Proof.
  destruct (checked_cases data cur) as [(-> & _) | [(_ & _ & _ & -> & _) | (_ & _ & _ & -> & _)]];
    repeat split; reflexivity.
Qed.

(** An iteration only appends to [known_episodes]. *)
Lemma checked_known data cur :
  exists more, known_episodes (checked data cur) = known_episodes data ++ more.
Proof.
  destruct (checked_cases data cur) as [(-> & _) | [(_ & _ & _ & -> & _) | (_ & _ & _ & -> & _)]].
  - exists []. rewrite app_nil_r. reflexivity.
  - eexists. reflexivity.
  - eexists. reflexivity.
Qed.

Lemma new_episodes_nil known l :
  (forall e, e ∈ l -> ep_id e ∈ known) -> new_episodes known l = [].
Proof.
  intros H. unfold new_episodes. induction l as [|e l IH]; [reflexivity|].
  rewrite filter_cons. destruct (decide (ep_id e ∉ known)) as [Hn | _].
  - exfalso. apply Hn, H, list_elem_of_here.
  - apply IH. intros x Hx. apply H, list_elem_of_further, Hx.
Qed.

Lemma new_episodes_elem known l e :
  e ∈ new_episodes known l <-> e ∈ l /\ ep_id e ∉ known.
Proof. unfold new_episodes. rewrite list_elem_of_filter. tauto. Qed.

(** After appending the new ids, nothing of the same scrape is new. *)
Lemma new_episodes_absorbed known l :
  new_episodes (known ++ map ep_id (new_episodes known l)) l = [].
Proof.
  apply new_episodes_nil. intros e He. apply elem_of_app.
  destruct (decide (ep_id e ∈ known)) as [Hin | Hout]; [left; exact Hin | right].
  apply list_elem_of_fmap. exists e. split; [reflexivity|].
  apply new_episodes_elem. split; assumption.
Qed.

(** Repeating an iteration on the same scrape result changes nothing and
    queues nothing. *)
Lemma checked_twice data cur :
  checked (checked data cur) cur = checked data cur
  /\ notified (checked data cur) cur = [].
Proof.
  assert (Hstable : new_episodes (known_episodes (checked data cur)) (default [] cur) = []).
  { destruct (checked_cases data cur)
      as [(-> & _ & [Ht | Hn]) | [(_ & _ & _ & -> & _) | (_ & _ & _ & -> & _)]].
    - destruct cur as [[|e l]|]; try reflexivity. discriminate.
    - exact Hn.
    - simpl. apply new_episodes_absorbed.
    - simpl. apply new_episodes_absorbed. }
  unfold checked at 1, notified, check_one. rewrite Hstable.
  destruct (truthy cur); split; reflexivity.
Qed.

(** While the flag is [False] an iteration queues no message. *)
Lemma notified_uninitialized data cur :
  initialized data = Some false -> notified data cur = [].
Proof.
  intros Hflag.
  destruct (checked_cases data cur) as [(_ & H & _) | [(_ & _ & Hi & _) | (_ & _ & _ & _ & H)]];
    try exact H.
  rewrite Hflag in Hi. discriminate.
Qed.

(** The first scrape that brings an unknown id sets the flag. *)
Lemma checked_uninitialized data l :
  initialized data = Some false ->
  (exists e, e ∈ l /\ ep_id e ∉ known_episodes data) ->
  checked data (Some l)
  = with_initialized true
      (with_known_episodes
         (known_episodes data ++ map ep_id (new_episodes (known_episodes data) l)) data).
Proof.
  intros Hflag (e & Hel & Hnew).
  assert (He : e ∈ new_episodes (known_episodes data) l)
    by (apply new_episodes_elem; split; assumption).
  destruct (checked_cases data (Some l))
    as [(_ & _ & [Ht | Hn]) | [(_ & _ & Hi & _) | (_ & _ & _ & H & _)]].
  - destruct l; [apply elem_of_nil in Hel; contradiction | discriminate].
  - simpl in Hn. rewrite Hn in He. apply elem_of_nil in He. contradiction.
  - rewrite Hflag in Hi. discriminate.
  - exact H.
Qed.

End CheckOne.

(** ** The poll loop *)

Section PollLoop.

Implicit Types (scrape : str -> option (list episode)) (subs done todo : store).

Lemma check_loop_result scrape done todo :
  (check_loop scrape done todo).1
  = (done ++ map (tick_item scrape) todo, flat_map (tick_messages scrape) todo).
Proof.
  revert done. induction todo as [|[url data] rest IH]; intros done.
  - simpl. rewrite app_nil_r. reflexivity.
  - cbn [check_loop].
    pose proof (check_one_result
                  (fun d => save_data (done ++ (url, d) :: rest)) url data (scrape url)) as H1.
    destruct (check_one _ url data (scrape url)) as [[data' ns] evs].
    simpl in H1. injection H1 as -> ->.
    specialize (IH (done ++ [(url, checked data (scrape url))])).
    destruct (check_loop scrape _ rest) as [[subs' ns'] evs'].
    simpl in IH. injection IH as -> ->.
    simpl. rewrite <- app_assoc. reflexivity.
Qed.

Lemma check_updates_store scrape subs :
  (check_updates scrape subs).1.1 = map (tick_item scrape) subs.
Proof. unfold check_updates. rewrite check_loop_result. reflexivity. Qed.

Lemma check_updates_messages scrape subs :
  (check_updates scrape subs).1.2 = flat_map (tick_messages scrape) subs.
Proof. unfold check_updates. rewrite check_loop_result. reflexivity. Qed.

Lemma get_sub_tick scrape url subs :
  get_sub url (map (tick_item scrape) subs)
  = (fun d => checked d (scrape url)) <$> get_sub url subs.
Proof.
  induction subs as [|[k d] rest IH]; [reflexivity|].
  simpl. destruct (decide (k = url)) as [-> | Hne]; [reflexivity | exact IH].
Qed.

Lemma get_sub_app_new url d subs :
  get_sub url subs = None -> get_sub url (subs ++ [(url, d)]) = Some d.
Proof.
  induction subs as [|[k d0] rest IH]; simpl.
  - intros _. destruct (decide (url = url)); [reflexivity | contradiction].
  - destruct (decide (k = url)); [discriminate | exact IH].
Qed.

(** The trace of a call keeps the lock discipline that [save_data] has. *)
Lemma guards_app held tr tr' :
  lock_guards_writes_only held tr = true ->
  lock_guards_writes_only held (tr ++ tr') = lock_guards_writes_only false tr'.
Proof.
  revert held. induction tr as [|e tr IH]; intros held H.
  - simpl in H. destruct held; [discriminate | reflexivity].
  - destruct e; simpl in *; apply andb_true_iff in H as [-> H]; simpl; apply IH, H.
Qed.

Lemma guards_appends url (new : list episode) tr :
  lock_guards_writes_only false (map (fun _ => EvMutate url) new ++ tr)
  = lock_guards_writes_only false tr.
Proof. induction new as [|e new IH]; [reflexivity | exact IH]. Qed.

Lemma guards_check_one persist url data cur :
  (forall d, lock_guards_writes_only false (persist d) = true) ->
  lock_guards_writes_only false (check_one persist url data cur).2 = true.
Proof.
  intros Hp. unfold check_one.
  destruct (truthy cur); [|reflexivity].
  destruct (new_episodes (known_episodes data) (default [] cur)) as [|e new]; [reflexivity|].
  destruct (default true (initialized data)); cbn [snd];
    rewrite guards_appends; [apply Hp | simpl; apply Hp].
Qed.

Lemma guards_check_loop scrape done todo :
  lock_guards_writes_only false (check_loop scrape done todo).2 = true.
Proof.
  revert done. induction todo as [|[url data] rest IH]; intros done; [reflexivity|].
  cbn [check_loop].
  pose proof (guards_check_one
                (fun d => save_data (done ++ (url, d) :: rest)) url data (scrape url)
                (fun d => eq_refl)) as H1.
  destruct (check_one _ url data (scrape url)) as [[data' ns] evs].
  specialize (IH (done ++ [(url, data')])).
  destruct (check_loop scrape _ rest) as [[subs' ns'] evs'].
  simpl in *. rewrite (guards_app false evs evs' H1). exact IH.
Qed.

Lemma guards_add_show scrape now chat url subs :
  lock_guards_writes_only false (add_show scrape now chat url subs).2 = true.
Proof.
  unfold add_show. destruct (negb (contains (py "hotstar.com") url)); [reflexivity|].
  destruct (get_sub url subs) as [data|]; [|reflexivity].
  destruct (bool_decide (chat ∉ subscribers data)); reflexivity.
Qed.

End PollLoop.

(** ** Claims about the poll cycle *)

Section PollClaims.

Implicit Types (scrape : str -> option (list episode)) (subs : store).

Lemma check_updates_app scrape subs subs' :
  (check_updates scrape (subs ++ subs')).1
  = ((check_updates scrape subs).1.1 ++ (check_updates scrape subs').1.1,
     (check_updates scrape subs).1.2 ++ (check_updates scrape subs').1.2).
Proof.
  rewrite !check_updates_store, !check_updates_messages.
  unfold check_updates. rewrite check_loop_result.
  rewrite map_app, flat_map_app. reflexivity.
Qed.

Lemma check_updates_cons scrape item subs :
  (check_updates scrape (item :: subs)).1
  = (tick_item scrape item :: (check_updates scrape subs).1.1,
     tick_messages scrape item ++ (check_updates scrape subs).1.2).
Proof.
  rewrite !check_updates_store, !check_updates_messages.
  unfold check_updates. rewrite check_loop_result. reflexivity.
Qed.


End PollClaims.

(** C1, as stated, fails: a successful extraction that finds zero episodes
    is skipped like a failed one, and the flag stays [False]. *)
Lemma empty_scrape_leaves_flag_false :
  scrape_via (fun _ => Document []) show_url = Some []
  /\ initialized pending = Some false
  /\ (check_updates (scrape_via (fun _ => Document [])) [(show_url, pending)]).1
     = ([(show_url, pending)], []).
Proof. vm_compute. repeat split; reflexivity. Qed.

(** C1, amended: for a subscription whose [initialized] flag is [False], a
    tick emits no notification for it whatever the extraction returns, and
    a tick whose extraction finds at least one id that is not yet known
    appends the new ids and sets the flag. *)
Theorem uninitialized_tick_is_silent
    (scrape : str -> option (list episode)) (before after : store)
    (url : str) (data : subscription)
    (Hflag : initialized data = Some false) :
  let r := check_updates scrape (before ++ (url, data) :: after) in
  r.1.2 = (check_updates scrape before).1.2 ++ (check_updates scrape after).1.2
  /\ forall found,
      scrape url = Some found ->
      (exists e, e ∈ found /\ ep_id e ∉ known_episodes data) ->
      exists data',
        r.1.1 = (check_updates scrape before).1.1
                  ++ (url, data') :: (check_updates scrape after).1.1
        /\ initialized data' = Some true
        /\ known_episodes data'
           = known_episodes data
               ++ map ep_id (new_episodes (known_episodes data) found).
Proof.
  intros r. subst r. rewrite check_updates_app, check_updates_cons.
  cbn [fst snd]. unfold tick_messages, tick_item. cbn [fst snd].
  rewrite (notified_uninitialized data (scrape url) Hflag). split; [reflexivity|].
  intros found Hfound Hnew. rewrite Hfound.
  rewrite (checked_uninitialized data found Hflag Hnew).
  eexists. split; [reflexivity|]. split; reflexivity.
Qed.

Lemma uninitialized_tick_is_silent_witness :
  (check_updates (fun _ => Some [ep1; ep2]) [(show_url, pending)]).1.2 = []
  /\ exists data',
      (check_updates (fun _ => Some [ep1; ep2]) [(show_url, pending)]).1.1
      = [(show_url, data')]
      /\ initialized data' = Some true
      /\ known_episodes data' = [ep_id ep1; ep_id ep2].
Proof.
  destruct (uninitialized_tick_is_silent
              (fun _ => Some [ep1; ep2]) [] [] show_url pending eq_refl) as [Hn Hs].
  split; [exact Hn|].
  destruct (Hs [ep1; ep2] eq_refl) as (data' & Hst & Hi & Hk).
  - exists ep1. split; [apply list_elem_of_here | apply not_elem_of_nil].
  - exists data'. split; [exact Hst|]. split; [exact Hi | exact Hk].
Defined.

(** C2: a second tick over unchanged remote content emits no notification
    and leaves the store, hence every [known_episodes], as the first tick
    left it. *)
Theorem tick_twice_is_idempotent (scrape : str -> option (list episode)) (subs : store) :
  let first := check_updates scrape subs in
  let second := check_updates scrape first.1.1 in
  second.1.2 = []
  /\ second.1.1 = first.1.1
  /\ forall url, known_episodes <$> get_sub url second.1.1
                 = known_episodes <$> get_sub url first.1.1.
Proof.
  intros first second. subst first second.
  assert (Hst : (check_updates scrape (check_updates scrape subs).1.1).1.1
                = (check_updates scrape subs).1.1).
  { rewrite !check_updates_store. induction subs as [|[url data] rest IH]; [reflexivity|].
    simpl. rewrite IH. unfold tick_item at 1 2. simpl.
    rewrite (proj1 (checked_twice data (scrape url))). reflexivity. }
  split; [|split; [exact Hst | intros url; rewrite Hst; reflexivity]].
  clear Hst. rewrite check_updates_messages, check_updates_store.
  induction subs as [|[url data] rest IH]; [reflexivity|].
  simpl. rewrite IH, app_nil_r. unfold tick_messages, tick_item. simpl.
  apply checked_twice.
Qed.

(** C3: over any sequence of ticks, whatever the extractions return, the
    [known_episodes] of a subscription only grows: the old list is a prefix
    of the new one, so every id stays. *)
Theorem known_episodes_never_shrinks
    (scrapes : list (str -> option (list episode))) (subs : store)
    (url : str) (data : subscription)
    (Hsub : get_sub url subs = Some data) :
  exists data',
    get_sub url (run_ticks scrapes subs) = Some data'
    /\ known_episodes data ⊆ known_episodes data'
    /\ known_episodes data `prefix_of` known_episodes data'.
Proof.
  revert subs data Hsub. induction scrapes as [|scrape later IH]; intros subs data Hsub.
  - exists data. split; [exact Hsub|]. split; reflexivity.
  - simpl. rewrite check_updates_store.
    destruct (IH (map (tick_item scrape) subs) (checked data (scrape url)))
      as (data' & Hget & Hsubset & Hprefix).
    { rewrite get_sub_tick, Hsub. reflexivity. }
    destruct (checked_known data (scrape url)) as [more Hmore].
    exists data'. split; [exact Hget|]. rewrite Hmore in Hsubset, Hprefix. split.
    + intros x Hx. apply Hsubset, elem_of_app. left. exact Hx.
    + etransitivity; [|exact Hprefix]. apply prefix_app_r. reflexivity.
Qed.

Lemma known_episodes_never_shrinks_witness :
  exists data',
    get_sub show_url
      (run_ticks [fun _ => None; fun _ => Some [ep1; ep2; ep3]; fun _ => Some []]
                 [(show_url, caught_up)]) = Some data'
    /\ known_episodes caught_up ⊆ known_episodes data'.
Proof.
  destruct (known_episodes_never_shrinks
              [fun _ => None; fun _ => Some [ep1; ep2; ep3]; fun _ => Some []]
              [(show_url, caught_up)] show_url caught_up) as (data' & Hget & Hsubset & _).
  - vm_compute. reflexivity.
  - exists data'. split; assumption.
Defined.




(** C8: whatever the extraction returns, a tick leaves the [subscribers],
    [title] and [last_check] of every subscription as they were; only
    [known_episodes] and [initialized] can change. *)
Theorem tick_frame (scrape : str -> option (list episode)) (subs : store)
    (url : str) (data : subscription)
    (Hsub : get_sub url subs = Some data) :
  exists data',
    get_sub url (check_updates scrape subs).1.1 = Some data'
    /\ subscribers data' = subscribers data
    /\ title data' = title data
    /\ last_check data' = last_check data.
Proof.
  exists (checked data (scrape url)). split.
  - rewrite check_updates_store, get_sub_tick, Hsub. reflexivity.
  - apply checked_frame.
Qed.

Lemma tick_frame_witness :
  exists data',
    get_sub show_url
      (check_updates (fun _ => Some [ep1; ep2; ep3]) [(show_url, caught_up)]).1.1 = Some data'
    /\ subscribers data' = [py "7"; py "8"]
    /\ known_episodes data' = [ep_id ep1; ep_id ep2; ep_id ep3].
Proof.
  destruct (tick_frame (fun _ => Some [ep1; ep2; ep3]) [(show_url, caught_up)]
              show_url caught_up) as (data' & Hget & Hs & _).
  - vm_compute. reflexivity.
  - exists data'. split; [exact Hget|]. split; [exact Hs|].
    vm_compute in Hget. injection Hget as <-. reflexivity.
Defined.

(** ** Claims about the subscription store *)

(** C7, as stated, fails: [add_show] first checks the URL, and an
    untracked URL without [hotstar.com] is rejected with no extraction and
    no new subscription. *)
Lemma add_show_rejects_foreign_url :
  get_sub (py "https://example.com/shows/x/12345678") [] = None
  /\ add_show (fun _ => Some [ep1]) 0%Z (py "7")
       (py "https://example.com/shows/x/12345678") []
     = ((false, py "Invalid URL. Please provide a valid Hotstar show URL."), [], []).
Proof. vm_compute. split; reflexivity. Qed.

(** C7, amended: called with an untracked URL that contains [hotstar.com],
    [add_show] performs one extraction and appends a subscription for the
    caller; when the extraction fails its [known_episodes] is empty and
    [initialized] is [False]; when it succeeds [known_episodes] lists the
    ids found and [initialized] is [True]. *)
Theorem add_show_seeds (scrape : str -> option (list episode)) (now : timestamp)
    (chat url : str) (subs : store)
    (Hvalid : contains (py "hotstar.com") url = true)
    (Hnew : get_sub url subs = None) :
  let r := add_show scrape now chat url subs in
  requests r.2 = [url]
  /\ exists d,
      r.1.2 = subs ++ [(url, d)]
      /\ get_sub url r.1.2 = Some d
      /\ subscribers d = [chat]
      /\ match scrape url with
         | None => known_episodes d = [] /\ initialized d = Some false
         | Some found => known_episodes d = map ep_id found /\ initialized d = Some true
         end.
Proof.
  intros r. subst r. unfold add_show. rewrite Hvalid, Hnew. cbn [negb fst snd].
  split; [reflexivity|].
  eexists. split; [reflexivity|]. split; [apply get_sub_app_new, Hnew|].
  split; [reflexivity|].
  destruct (scrape url); split; reflexivity.
Qed.

Lemma add_show_seeds_witness :
  (exists d,
      (add_show (fun _ => None) 5%Z (py "7") show_url []).1.2 = [(show_url, d)]
      /\ known_episodes d = [] /\ initialized d = Some false)
  /\ (exists d,
      (add_show (fun _ => Some [ep1; ep2]) 5%Z (py "7") show_url []).1.2 = [(show_url, d)]
      /\ known_episodes d = [ep_id ep1; ep_id ep2] /\ initialized d = Some true).
Proof.
  split.
  - destruct (add_show_seeds (fun _ => None) 5%Z (py "7") show_url [])
      as (_ & d & Hst & _ & _ & Hk & Hi); [vm_compute; reflexivity | reflexivity |].
    exists d. split; [exact Hst|]. split; assumption.
  - destruct (add_show_seeds (fun _ => Some [ep1; ep2]) 5%Z (py "7") show_url [])
      as (_ & d & Hst & _ & _ & Hk & Hi); [vm_compute; reflexivity | reflexivity |].
    exists d. split; [exact Hst|]. split; assumption.
Defined.

(** C10, as stated, fails: only the file write of [save_data] runs under
    the lock.  Appending a subscriber mutates the store before the lock is
    taken, and so do the appends of a poll cycle. *)
Lemma store_mutated_outside_lock :
  (add_show (fun _ => None) 0%Z (py "8") show_url [(show_url, pending)]).2
  = [EvMutate show_url; EvAcquire;
     EvWrite [(show_url, with_subscribers [py "7"; py "8"] pending)]; EvRelease]
  /\ mutations_locked false
       (add_show (fun _ => None) 0%Z (py "8") show_url [(show_url, pending)]).2 = false
  /\ mutations_locked false
       (check_updates (fun _ => Some [ep1]) [(show_url, pending)]).2 = false.
Proof. vm_compute. repeat split; reflexivity. Qed.

(** C10, amended: the lock is held for the file write of [save_data] and
    for nothing else; every in-memory mutation of the store (seeding a
    subscription, appending a subscriber, appending known episodes, setting
    the flag) and every page request runs with the lock free. *)
Theorem lock_guards_file_writes_only
    (scrape : str -> option (list episode)) (now : timestamp)
    (chat url : str) (subs : store) :
  lock_guards_writes_only false (add_show scrape now chat url subs).2 = true
  /\ lock_guards_writes_only false (check_updates scrape subs).2 = true.
Proof.
  split; [apply guards_add_show | apply guards_check_loop].
Qed.

(** * Further properties of the code *)

(** ** Checks of the front end on concrete inputs *)

Example split_ws_command :
  split_ws (py "  /monitor   https://www.hotstar.com/in/shows/a/1  extra ")
  = [py "/monitor"; py "https://www.hotstar.com/in/shows/a/1"; py "extra"].
Proof. vm_compute. reflexivity. Qed.

Example strip_ws_title : strip_ws (newline :: py " Movie  One " ++ [newline]) = py "Movie  One".
Proof. vm_compute. reflexivity. Qed.

Example keyboard_then_press :
  makeKeyboard [py "A"; py "B"] = [Button (py "A") (py "0"); Button (py "B") (py "1")]
  /\ callback_query [py "A"; py "B"] [(py "A", [py "a1"; py "a2"]); (py "B", [py "b1"])] (py "1")
     = [py "b1"].
Proof. vm_compute. split; reflexivity. Qed.

Example details_two_magnets_one_torrent :
  get_movie_details (py "https://www.1tamilmv.fi")
    (DetailDoc [DetailAnchor (py "magnet:?xt=1") None;
                DetailAnchor (py "/file/1.torrent") (Some (py "torrent"));
                DetailAnchor (py "magnet:?xt=2") None]
               (Some (py " Film ")))
  = [movie_message (py "Film") (py "magnet:?xt=1")
       (Some (py "https://www.1tamilmv.fi/file/1.torrent"));
     movie_message (py "Film") (py "magnet:?xt=2") None].
Proof. vm_compute. reflexivity. Qed.

(** ** The result of a scrape *)

Section ScrapeResult.

Implicit Types (d : list (str * episode)) (l eps : list episode) (e : episode).

Lemma dict_set_keys k v d :
  (dict_set k v d).*1 = if decide (k ∈ d.*1) then d.*1 else d.*1 ++ [k].
Proof.
  induction d as [|[k0 v0] d IH]; [reflexivity|].
  cbn [dict_set]. destruct (decide (k0 = k)) as [-> | Hne]; rewrite !fmap_cons; cbn [fst].
  - rewrite decide_True by apply list_elem_of_here. reflexivity.
  - rewrite IH. destruct (decide (k ∈ d.*1)) as [Hin | Hout].
    + rewrite decide_True by (apply list_elem_of_further, Hin). reflexivity.
    + rewrite decide_False; [reflexivity|].
      intros H. apply elem_of_cons in H as [-> | H]; contradiction.
Qed.

Lemma dict_set_NoDup k v d : NoDup d.*1 -> NoDup (dict_set k v d).*1.
Proof.
  intros Hd. rewrite dict_set_keys. destruct (decide (k ∈ d.*1)) as [Hin | Hout]; [exact Hd|].
  apply NoDup_app. split; [exact Hd|]. split; [|apply NoDup_singleton].
  intros x Hx Hx'. apply list_elem_of_singleton in Hx'. subst x. contradiction.
Qed.

Lemma dict_set_elem k v d k' v' :
  NoDup d.*1 ->
  (k', v') ∈ dict_set k v d <-> (k' = k /\ v' = v) \/ (k' <> k /\ (k', v') ∈ d).
Proof.
  induction d as [|[k0 v0] d IH]; intros Hd.
  - simpl. rewrite list_elem_of_singleton. split.
    + intros [= -> ->]. left. split; reflexivity.
    + intros [[-> ->] | [_ H]]; [reflexivity | apply elem_of_nil in H; contradiction].
  - rewrite fmap_cons in Hd. cbn [fst] in Hd. apply NoDup_cons in Hd as [Hk0 Hd].
    cbn [dict_set]. destruct (decide (k0 = k)) as [-> | Hne].
    + rewrite !elem_of_cons. split.
      * intros [[= -> ->] | H]; [left; split; reflexivity|].
        right. split; [|right; exact H].
        intros ->. apply Hk0. apply list_elem_of_fmap. exists (k, v'). split; [reflexivity | exact H].
      * intros [[-> ->] | [Hk [[= -> _] | H]]];
          [left; reflexivity | contradiction | right; exact H].
    + rewrite !elem_of_cons, (IH Hd). split.
      * intros [[= -> ->] | [[-> ->] | [Hk H]]].
        -- right. split; [exact Hne | left; reflexivity].
        -- left. split; reflexivity.
        -- right. split; [exact Hk | right; exact H].
      * intros [[-> ->] | [Hk [[= -> ->] | H]]].
        -- right. left. split; reflexivity.
        -- left. reflexivity.
        -- right. right. split; assumption.
Qed.

(** The dict that the comprehension of line 154 builds. *)
Lemma episode_dict_spec l :
  let d := fold_left (fun d e => dict_set (ep_id e) e d) l [] in
  NoDup d.*1
  /\ forall k v, (k, v) ∈ d <->
       k = ep_id v
       /\ exists pre post, l = pre ++ v :: post /\ ep_id v ∉ map ep_id post.
Proof.
  induction l as [|x l [IHnd IH]] using rev_ind.
  - simpl. split; [apply NoDup_nil_2|]. intros k v. split.
    + intros H. apply elem_of_nil in H. contradiction.
    + intros (_ & pre & post & H & _). destruct pre; discriminate.
  - rewrite fold_left_app. simpl.
    set (d := fold_left (fun d e => dict_set (ep_id e) e d) l []) in *.
    split; [apply dict_set_NoDup, IHnd|]. intros k v.
    rewrite (dict_set_elem _ _ _ _ _ IHnd), IH. split.
    + intros [[-> ->] | (Hk & -> & pre & post & -> & Hpost)].
      * split; [reflexivity|]. exists l, []. split; [reflexivity | apply not_elem_of_nil].
      * split; [reflexivity|]. exists pre, (post ++ [x]).
        split; [rewrite <- app_assoc; reflexivity|].
        rewrite map_app. intros H. apply elem_of_app in H as [H | H]; [contradiction|].
        simpl in H. apply list_elem_of_singleton in H. congruence.
    + intros (-> & pre & post & Heq & Hpost).
      destruct post as [|y post _] using rev_ind.
      * apply app_inj_tail in Heq as [_ ->]. left. split; reflexivity.
      * rewrite app_comm_cons, app_assoc in Heq. apply app_inj_tail in Heq as [-> ->].
        rewrite map_app in Hpost. right. split; [|split; [reflexivity|]].
        -- intros E. apply Hpost, elem_of_app. right. simpl.
           apply list_elem_of_singleton. exact E.
        -- exists pre, post. split; [reflexivity|].
           intros H. apply Hpost, elem_of_app. left. exact H.
Qed.

Lemma unique_episodes_elem l e :
  e ∈ unique_episodes l
  <-> exists pre post, l = pre ++ e :: post /\ ep_id e ∉ map ep_id post.
Proof.
  unfold unique_episodes. destruct (episode_dict_spec l) as [_ H]. cbv zeta in H.
  rewrite list_elem_of_fmap. split.
  - intros ([k v] & -> & Hin). apply H in Hin as [_ Hin]. exact Hin.
  - intros Hdec. exists (ep_id e, e). split; [reflexivity|]. apply H. split; [reflexivity | exact Hdec].
Qed.

Lemma unique_episodes_ids_NoDup l : NoDup (map ep_id (unique_episodes l)).
Proof.
  unfold unique_episodes. destruct (episode_dict_spec l) as [Hnd H]. cbv zeta in Hnd, H.
  set (d := fold_left (fun d e => dict_set (ep_id e) e d) l []) in *.
  assert (Hkeys : map ep_id (map snd d) = d.*1).
  { assert (Hall : forall k v, (k, v) ∈ d -> k = ep_id v) by (intros k v Hin; apply H, Hin).
    clear H Hnd. induction d as [|[k v] d IH]; [reflexivity|].
    rewrite (fmap_cons fst). cbn [map fst snd].
    rewrite <- (Hall k v) by apply list_elem_of_here. f_equal.
    apply IH. intros k' v' Hin. apply Hall, list_elem_of_further, Hin. }
  rewrite Hkeys. exact Hnd.
Qed.

Lemma last_occurrence l id :
  id ∈ map ep_id l ->
  exists pre e post, l = pre ++ e :: post /\ ep_id e = id /\ id ∉ map ep_id post.
Proof.
  induction l as [|x l IH]; intros Hin.
  - apply elem_of_nil in Hin. contradiction.
  - destruct (decide (id ∈ map ep_id l)) as [Hl | Hl].
    + destruct (IH Hl) as (pre & e & post & -> & He & Hpost).
      exists (x :: pre), e, post. repeat split; assumption.
    + simpl in Hin. apply elem_of_cons in Hin as [-> | Hin]; [|contradiction].
      exists [], x, l. repeat split. exact Hl.
Qed.

Lemma unique_episodes_ids l id :
  id ∈ map ep_id (unique_episodes l) <-> id ∈ map ep_id l.
Proof.
  split.
  - intros H. apply list_elem_of_fmap in H as (e & -> & He).
    apply unique_episodes_elem in He as (pre & post & -> & _).
    rewrite map_app. apply elem_of_app. right. apply list_elem_of_here.
  - intros H. destruct (last_occurrence l id H) as (pre & e & post & -> & <- & Hpost).
    apply list_elem_of_fmap. exists e. split; [reflexivity|].
    apply unique_episodes_elem. exists pre, post. split; [reflexivity | exact Hpost].
Qed.




End ScrapeResult.



(** X2: the ids of the episodes that a scrape returns are pairwise
    distinct, and deduplication loses no id: the id of every retained link
    is the id of a returned episode. *)
Theorem scrape_ids_distinct_and_complete (links : list anchor) :
  exists eps,
    scrape_episodes (Document links) = Some eps
    /\ NoDup (map ep_id eps)
    /\ forall a e, a ∈ links -> scan_link a = Some e -> ep_id e ∈ map ep_id eps.
Proof.
  eexists. split; [reflexivity|]. split; [apply unique_episodes_ids_NoDup|].
  intros a e Ha He. apply unique_episodes_ids, list_elem_of_fmap.
  exists e. split; [reflexivity|]. apply list_elem_of_omap. exists a. split; assumption.
Qed.

(** X3: when several links of a page carry the same id, the returned
    episode is the one scanned last: an episode is returned exactly when it
    comes from a retained link that no later retained link shares its id
    with. *)
Theorem scrape_keeps_last_seen (links : list anchor) (e : episode) :
  (exists eps, scrape_episodes (Document links) = Some eps /\ e ∈ eps)
  <-> exists earlier later,
        omap scan_link links = earlier ++ e :: later
        /\ ep_id e ∉ map ep_id later.
Proof.
  split.
  - intros (eps & [= <-] & He). apply unique_episodes_elem, He.
  - intros H. eexists. split; [reflexivity|]. apply unique_episodes_elem, H.
Qed.

(** ** The store under [add_show] *)

Section StoreFacts.

Implicit Types (subs : store) (url u chat : str) (d data : subscription).

Lemma get_sub_None url subs : get_sub url subs = None <-> url ∉ subs.*1.
Proof.
  induction subs as [|[k d] rest IH]; cbn [get_sub].
  - split; [intros _; apply not_elem_of_nil | reflexivity].
  - rewrite fmap_cons. cbn [fst]. rewrite not_elem_of_cons.
    destruct (decide (k = url)) as [-> | Hne].
    + split; [discriminate | intros [H _]; contradiction].
    + rewrite IH. split; [intros H; split; [congruence | exact H] | intros [_ H]; exact H].
Qed.

Lemma get_sub_elem url d subs : get_sub url subs = Some d -> (url, d) ∈ subs.
Proof.
  induction subs as [|[k d0] rest IH]; simpl; [discriminate|].
  destruct (decide (k = url)) as [-> | Hne].
  - intros [= ->]. apply list_elem_of_here.
  - intros H. apply list_elem_of_further, IH, H.
Qed.

Lemma get_sub_set_sub url d' subs :
  get_sub url (set_sub url d' subs) = (fun _ => d') <$> get_sub url subs.
Proof.
  induction subs as [|[k d] rest IH]; [reflexivity|].
  simpl. destruct (decide (k = url)) as [-> | Hne]; simpl.
  - rewrite decide_True by reflexivity. reflexivity.
  - rewrite decide_False by exact Hne. exact IH.
Qed.

Lemma get_sub_set_sub_ne u url d' subs :
  u <> url -> get_sub u (set_sub url d' subs) = get_sub u subs.
Proof.
  intros Hu. induction subs as [|[k d] rest IH]; [reflexivity|].
  simpl. destruct (decide (k = url)) as [-> | Hne]; simpl.
  - rewrite !decide_False by congruence. reflexivity.
  - rewrite IH. reflexivity.
Qed.

Lemma get_sub_app_ne u url d subs :
  u <> url -> get_sub u (subs ++ [(url, d)]) = get_sub u subs.
Proof.
  intros Hu. induction subs as [|[k d0] rest IH]; simpl.
  - rewrite decide_False by congruence. reflexivity.
  - rewrite IH. reflexivity.
Qed.

Lemma set_sub_keys url d' subs : (set_sub url d' subs).*1 = subs.*1.
Proof.
  induction subs as [|[k d] rest IH]; [reflexivity|].
  cbn [set_sub]. destruct (decide (k = url)); rewrite !fmap_cons; [reflexivity|].
  rewrite IH. reflexivity.
Qed.

Lemma set_sub_elem url d' subs u d :
  (u, d) ∈ set_sub url d' subs -> (u, d) ∈ subs \/ (u = url /\ d = d').
Proof.
  induction subs as [|[k d0] rest IH]; simpl.
  - intros H. apply elem_of_nil in H. contradiction.
  - destruct (decide (k = url)) as [-> | Hne]; rewrite !elem_of_cons.
    + intros [[= -> ->] | H]; [right; split; reflexivity | left; right; exact H].
    + intros [H | H]; [left; left; exact H|].
      destruct (IH H) as [H' | H']; [left; right; exact H' | right; exact H'].
Qed.

Lemma last_write_app tr tr' :
  last_write (tr ++ tr')
  = match last_write tr' with
    | Some snapshot => Some snapshot
    | None => last_write tr
    end.
Proof.
  induction tr as [|e tr IH]; simpl.
  - destruct (last_write tr'); reflexivity.
  - rewrite IH. destruct (last_write tr'); reflexivity.
Qed.

Lemma scrape_via_ids_NoDup web url found :
  scrape_via web url = Some found -> NoDup (map ep_id found).
Proof.
  unfold scrape_via. destruct (web url); [discriminate|].
  intros [= <-]. apply unique_episodes_ids_NoDup.
Qed.

End StoreFacts.

(** X4: after [add_show] with a URL that passes the check, the caller is a
    subscriber of that URL; a second call, whatever the site returns then,
    answers "already monitoring" and changes and writes nothing. *)
Theorem add_show_twice (scrape scrape' : str -> option (list episode))
    (now now' : timestamp) (chat url : str) (subs : store)
    (Hvalid : contains (py "hotstar.com") url = true) :
  let s1 := (add_show scrape now chat url subs).1.2 in
  (exists d, get_sub url s1 = Some d /\ chat ∈ subscribers d)
  /\ add_show scrape' now' chat url s1
     = ((false, py "You are already monitoring this show."), s1, []).
Proof.
  intros s1.
  assert (Hsub : exists d, get_sub url s1 = Some d /\ chat ∈ subscribers d).
  { subst s1. unfold add_show. rewrite Hvalid. cbn [negb].
    destruct (get_sub url subs) as [data|] eqn:Hget.
    - destruct (bool_decide (chat ∉ subscribers data)) eqn:Hb; cbn [fst snd].
      + eexists. split; [rewrite get_sub_set_sub, Hget; reflexivity|].
        simpl. apply elem_of_app. right. apply list_elem_of_here.
      + exists data. split; [exact Hget|].
        apply bool_decide_eq_false in Hb. destruct (decide (chat ∈ subscribers data)); tauto.
    - cbn [fst snd]. eexists. split; [apply get_sub_app_new, Hget|].
      simpl. apply list_elem_of_here. }
  split; [exact Hsub|]. destruct Hsub as (d & Hget & Hin).
  unfold add_show. rewrite Hvalid, Hget. cbn [negb].
  rewrite bool_decide_eq_false_2; [reflexivity|]. intros H. exact (H Hin).
Qed.

Lemma add_show_twice_witness :
  add_show (fun _ => Some [ep1; ep2; ep3]) 9%Z (py "7") show_url
    (add_show (fun _ => None) 5%Z (py "7") show_url []).1.2
  = ((false, py "You are already monitoring this show."),
     (add_show (fun _ => None) 5%Z (py "7") show_url []).1.2, []).
Proof.
  apply (add_show_twice (fun _ => None) (fun _ => Some [ep1; ep2; ep3]) 5%Z 9%Z
           (py "7") show_url []).
  vm_compute. reflexivity.
Defined.

(** X5: [add_show] never touches the record of another URL; for a URL that
    is already tracked it requests no page and leaves the known episodes,
    the flag, the title and the time stamp of its record as they were, the
    subscribers being the same or extended by the caller. *)
Theorem add_show_frame (scrape : str -> option (list episode)) (now : timestamp)
    (chat url : str) (subs : store) :
  let r := add_show scrape now chat url subs in
  (forall u, u <> url -> get_sub u r.1.2 = get_sub u subs)
  /\ forall data, get_sub url subs = Some data ->
       requests r.2 = []
       /\ exists d',
            get_sub url r.1.2 = Some d'
            /\ known_episodes d' = known_episodes data
            /\ initialized d' = initialized data
            /\ title d' = title data
            /\ last_check d' = last_check data
            /\ (subscribers d' = subscribers data
                \/ subscribers d' = subscribers data ++ [chat]).
Proof.
  intros r. subst r. unfold add_show.
  destruct (negb (contains (py "hotstar.com") url)); cbn [fst snd].
  { split; [reflexivity|]. intros data Hget. split; [reflexivity|].
    exists data. repeat split; try assumption. left. reflexivity. }
  destruct (get_sub url subs) as [data|] eqn:Hget.
  - destruct (bool_decide (chat ∉ subscribers data)); cbn [fst snd].
    + split; [intros u Hu; apply get_sub_set_sub_ne, Hu|].
      intros data0 [= <-]. split; [reflexivity|].
      eexists. split; [rewrite get_sub_set_sub, Hget; reflexivity|].
      repeat split. right. reflexivity.
    + split; [reflexivity|]. intros data0 [= <-]. split; [reflexivity|].
      exists data. repeat split; try assumption. left. reflexivity.
  - cbn [fst snd]. split; [intros u Hu; apply get_sub_app_ne, Hu | discriminate].
Qed.

(** X6: [add_show] is write-through: when it reports success, the last
    file write of the call carries exactly the store it leaves; when it
    reports failure, the store is unchanged and nothing is written,
    requested or mutated. *)
Theorem add_show_saves_what_it_changes (scrape : str -> option (list episode))
    (now : timestamp) (chat url : str) (subs : store) :
  let r := add_show scrape now chat url subs in
  (r.1.1.1 = true -> last_write r.2 = Some r.1.2)
  /\ (r.1.1.1 = false -> r.1.2 = subs /\ r.2 = []).
Proof.
  intros r. subst r. unfold add_show.
  destruct (negb (contains (py "hotstar.com") url)); cbn [fst snd].
  { split; [discriminate | intros _; split; reflexivity]. }
  destruct (get_sub url subs) as [data|].
  - destruct (bool_decide (chat ∉ subscribers data)); cbn [fst snd].
    + split; [reflexivity | discriminate].
    + split; [discriminate | intros _; split; reflexivity].
  - cbn [fst snd]. split; [reflexivity | discriminate].
Qed.

(** X7: [add_show] keeps the store free of duplicates: starting from a
    store without a repeated key, a repeated subscriber or a repeated known
    episode (the empty store is one), the store it leaves is again so. *)
Theorem add_show_keeps_store_wf (web : str -> page) (now : timestamp)
    (chat url : str) (subs : store) (Hwf : store_wf subs) :
  store_wf [] /\ store_wf (add_show (scrape_via web) now chat url subs).1.2.
Proof.
  split.
  { split; [apply NoDup_nil_2|]. intros u d H. apply elem_of_nil in H. contradiction. }
  destruct Hwf as [Hkeys Hrec]. unfold add_show.
  destruct (negb (contains (py "hotstar.com") url)); cbn [fst snd]; [split; assumption|].
  destruct (get_sub url subs) as [data|] eqn:Hget.
  - destruct (bool_decide (chat ∉ subscribers data)) eqn:Hb; cbn [fst snd]; [|split; assumption].
    apply bool_decide_eq_true in Hb. split; [rewrite set_sub_keys; exact Hkeys|].
    intros u d Hin. apply set_sub_elem in Hin as [Hin | [-> ->]]; [apply (Hrec u d Hin)|].
    destruct (Hrec url data (get_sub_elem _ _ _ Hget)) as [Hs Hk]. simpl. split; [|exact Hk].
    apply NoDup_app. split; [exact Hs|]. split; [|apply NoDup_singleton].
    intros x Hx Hx'. apply list_elem_of_singleton in Hx'. subst x. contradiction.
  - cbn [fst snd]. split.
    + rewrite fmap_app. apply NoDup_app. split; [exact Hkeys|]. split; [|apply NoDup_singleton].
      intros x Hx Hx'. apply list_elem_of_singleton in Hx'. subst x.
      apply get_sub_None in Hget. contradiction.
    + intros u d Hin. apply elem_of_app in Hin as [Hin | Hin]; [apply (Hrec u d Hin)|].
      apply list_elem_of_singleton in Hin. injection Hin as -> ->. simpl.
      split; [apply NoDup_singleton|].
      destruct (scrape_via web url) as [found|] eqn:E; [|apply NoDup_nil_2].
      apply (scrape_via_ids_NoDup web url found E).
Qed.

Lemma add_show_keeps_store_wf_witness :
  store_wf (add_show (scrape_via (fun _ => Fault)) 0%Z (py "7") show_url []).1.2.
Proof.
  apply (add_show_keeps_store_wf (fun _ => Fault) 0%Z (py "7") show_url []).
  split; [apply NoDup_nil_2|]. intros u d H. apply elem_of_nil in H. contradiction.
Defined.

(** ** The poll cycle: traces, invariants and messages *)

Section PollFacts.

Implicit Types (scrape : str -> option (list episode)) (subs done todo : store).
Implicit Types (data : subscription) (cur : option (list episode)).

(** An iteration either does nothing, or ends with [save_data] on the
    record it leaves. *)
Lemma check_one_trace persist url data cur :
  check_one persist url data cur = (data, [], [])
  \/ exists muts,
       Forall (fun e => e = EvMutate url) muts
       /\ (check_one persist url data cur).2
          = muts ++ persist (check_one persist url data cur).1.1.
Proof.
  unfold check_one. destruct (truthy cur); [|left; reflexivity].
  destruct (new_episodes (known_episodes data) (default [] cur)) as [|e new];
    [left; reflexivity | right].
  assert (Hmuts : forall l : list episode,
             Forall (fun ev => ev = EvMutate url) (map (fun _ => EvMutate url) l)).
  { intros l. induction l; constructor; [reflexivity | assumption]. }
  destruct (default true (initialized data)); cbn [fst snd].
  - eexists. split; [apply Hmuts | reflexivity].
  - exists (map (fun _ => EvMutate url) (e :: new) ++ [EvMutate url]). split.
    + apply Forall_app. split; [apply Hmuts | constructor; [reflexivity | constructor]].
    + rewrite <- app_assoc. reflexivity.
Qed.

Lemma last_write_mutations url muts :
  Forall (fun e => e = EvMutate url) muts -> last_write muts = None.
Proof. induction 1 as [|e muts -> _ IH]; [reflexivity|]. simpl. rewrite IH. reflexivity. Qed.

Lemma requests_mutations url muts :
  Forall (fun e => e = EvMutate url) muts -> requests muts = [].
Proof. induction 1 as [|e muts -> _ IH]; [reflexivity | exact IH]. Qed.

Lemma requests_app tr tr' : requests (tr ++ tr') = requests tr ++ requests tr'.
Proof. apply omap_app. Qed.

Lemma check_loop_write_through scrape done todo :
  let r := check_loop scrape done todo in
  match last_write r.2 with
  | Some snapshot => snapshot = r.1.1
  | None => r.1.1 = done ++ todo /\ r.1.2 = []
  end.
Proof.
  revert done. induction todo as [|[url data] rest IH]; intros done.
  - simpl. rewrite app_nil_r. split; reflexivity.
  - cbn [check_loop].
    destruct (check_one_trace (fun d => save_data (done ++ (url, d) :: rest))
                url data (scrape url)) as [Hskip | (muts & Hmuts & Htr)].
    + rewrite Hskip. specialize (IH (done ++ [(url, data)])).
      destruct (check_loop scrape (done ++ [(url, data)]) rest) as [[subs' ns'] evs'].
      cbn [fst snd app] in *. simpl last_write.
      destruct (last_write evs'); [exact IH|].
      rewrite <- app_assoc in IH. exact IH.
    + destruct (check_one _ url data (scrape url)) as [[data' ns] evs].
      cbn [fst snd] in Htr. subst evs. specialize (IH (done ++ [(url, data')])).
      destruct (check_loop scrape (done ++ [(url, data')]) rest) as [[subs' ns'] evs'].
      cbn [fst snd] in *. simpl last_write. rewrite last_write_app.
      destruct (last_write evs'); [exact IH|].
      destruct IH as [-> _]. rewrite last_write_app. simpl. rewrite <- app_assoc. reflexivity.
Qed.

Lemma check_loop_requests scrape done todo :
  requests (check_loop scrape done todo).2 = todo.*1.
Proof.
  revert done. induction todo as [|[url data] rest IH]; intros done; [reflexivity|].
  cbn [check_loop].
  assert (Hone : requests (check_one (fun d => save_data (done ++ (url, d) :: rest))
                             url data (scrape url)).2 = []).
  { destruct (check_one_trace (fun d => save_data (done ++ (url, d) :: rest))
                url data (scrape url)) as [-> | (muts & Hmuts & ->)]; [reflexivity|].
    rewrite requests_app, (requests_mutations url muts Hmuts). reflexivity. }
  destruct (check_one _ url data (scrape url)) as [[data' ns] evs].
  specialize (IH (done ++ [(url, data')])).
  destruct (check_loop scrape (done ++ [(url, data')]) rest) as [[subs' ns'] evs'].
  cbn [fst snd] in *. rewrite fmap_cons. cbn [fst].
  change (requests (EvScrape url :: evs ++ evs')) with (url :: requests (evs ++ evs')).
  rewrite requests_app, Hone, IH. reflexivity.
Qed.

Lemma tick_item_keys scrape subs : (map (tick_item scrape) subs).*1 = subs.*1.
Proof.
  induction subs as [|[u d] rest IH]; [reflexivity|].
  cbn [map]. rewrite !fmap_cons, IH. reflexivity.
Qed.

Lemma tick_item_elem scrape subs u d' :
  (u, d') ∈ map (tick_item scrape) subs ->
  exists d, (u, d) ∈ subs /\ d' = checked d (scrape u).
Proof.
  intros H. apply list_elem_of_fmap in H as ([u0 d] & Heq & Hin).
  unfold tick_item in Heq. simpl in Heq. injection Heq as -> ->.
  exists d. split; [exact Hin | reflexivity].
Qed.

Lemma known_NoDup_step (known : list str) (found : list episode) :
  NoDup known -> NoDup (map ep_id found) ->
  NoDup (known ++ map ep_id (new_episodes known found)).
Proof.
  intros Hk Hf. apply NoDup_app. split; [exact Hk|]. split.
  - intros x Hx Hx'. apply list_elem_of_fmap in Hx' as (e & -> & He).
    apply new_episodes_elem in He as [_ He]. contradiction.
  - apply (sublist_NoDup _ (map ep_id found)); [exact Hf|].
    apply (fmap_sublist ep_id). unfold new_episodes. apply sublist_filter.
Qed.

Lemma notifications_for_length data (new : list episode) :
  length (notifications_for data new) = length (subscribers data) * length new.
Proof.
  unfold notifications_for. induction (subscribers data) as [|s l IH]; [reflexivity|].
  simpl. rewrite length_app, length_map, IH. reflexivity.
Qed.

Lemma notifications_for_elem data (new : list episode) n :
  n ∈ notifications_for data new
  <-> exists s e, s ∈ subscribers data /\ e ∈ new
                  /\ n = Notification s (title data) (ep_title e) (ep_link e).
Proof.
  unfold notifications_for. rewrite list_elem_of_In, in_flat_map. split.
  - intros (s & Hs & Hn). apply list_elem_of_In, list_elem_of_fmap in Hn as (e & -> & He).
    exists s, e. split; [apply list_elem_of_In, Hs|]. split; [exact He | reflexivity].
  - intros (s & e & Hs & He & ->). exists s. split; [apply list_elem_of_In, Hs|].
    apply list_elem_of_In, list_elem_of_fmap. exists e. split; [reflexivity | exact He].
Qed.

Lemma notifications_for_nil data : notifications_for data [] = [].
Proof.
  unfold notifications_for. induction (subscribers data); [reflexivity | assumption].
Qed.

(** The messages of an iteration on an initialised record. *)
Lemma notified_initialized data found :
  default true (initialized data) = true ->
  notified data (Some found)
  = notifications_for data (new_episodes (known_episodes data) found).
Proof.
  intros Hi.
  destruct (checked_cases data (Some found))
    as [(_ & Hn & [Ht | Hnew]) | [(_ & _ & _ & Hc & Hn) | (_ & _ & Hi' & _)]].
  - destruct found; [|discriminate]. rewrite Hn. symmetry. apply notifications_for_nil.
  - simpl in Hnew. rewrite Hn, Hnew. symmetry. apply notifications_for_nil.
  - rewrite Hn, Hc. reflexivity.
  - congruence.
Qed.

Lemma notified_elem data cur n :
  n ∈ notified data cur ->
  default true (initialized data) = true
  /\ exists found, cur = Some found
       /\ n ∈ notifications_for data (new_episodes (known_episodes data) found).
Proof.
  intros Hn.
  destruct (checked_cases data cur)
    as [(_ & H & _) | [(Ht & _ & Hi & Hc & H) | (_ & _ & _ & _ & H)]];
    try (rewrite H in Hn; apply elem_of_nil in Hn; contradiction).
  split; [exact Hi|]. destruct cur as [found|]; [|discriminate].
  exists found. split; [reflexivity|]. rewrite H, Hc in Hn. exact Hn.
Qed.

Lemma checked_absorbs data found e :
  e ∈ found -> ep_id e ∈ known_episodes (checked data (Some found)).
Proof.
  intros He.
  assert (Hor : ep_id e ∈ known_episodes data
                \/ e ∈ new_episodes (known_episodes data) found).
  { destruct (decide (ep_id e ∈ known_episodes data)) as [H | H]; [left; exact H | right].
    apply new_episodes_elem. split; assumption. }
  destruct (checked_cases data (Some found))
    as [(-> & _ & [Ht | Hnew]) | [(_ & _ & _ & -> & _) | (_ & _ & _ & -> & _)]].
  - destruct found; [apply elem_of_nil in He; contradiction | discriminate].
  - simpl in Hnew. rewrite Hnew in Hor. destruct Hor as [H | H]; [exact H|].
    apply elem_of_nil in H. contradiction.
  - simpl. apply elem_of_app. destruct Hor as [H | H]; [left; exact H | right].
    apply list_elem_of_fmap. exists e. split; [reflexivity | exact H].
  - simpl. apply elem_of_app. destruct Hor as [H | H]; [left; exact H | right].
    apply list_elem_of_fmap. exists e. split; [reflexivity | exact H].
Qed.

Lemma checked_flag_kept data cur :
  default true (initialized data) = true ->
  initialized (checked data cur) = initialized data.
Proof.
  intros Hi.
  destruct (checked_cases data cur)
    as [(-> & _) | [(_ & _ & _ & -> & _) | (_ & _ & Hi' & _)]];
    [reflexivity | reflexivity | congruence].
Qed.

End PollFacts.

(** X8: [check_updates] is write-through: the last file write of a cycle
    carries exactly the store the cycle leaves; a cycle that writes nothing
    has changed nothing and queued no message. *)
Theorem check_updates_saves_what_it_changes
    (scrape : str -> option (list episode)) (subs : store) :
  let r := check_updates scrape subs in
  match last_write r.2 with
  | Some snapshot => snapshot = r.1.1
  | None => r.1.1 = subs /\ r.1.2 = []
  end.
Proof. apply (check_loop_write_through scrape [] subs). Qed.

(** X9: a poll cycle requests the page of every tracked URL exactly once,
    in the order of the store, and leaves the keys of the store as they
    were: it neither adds nor removes nor reorders a subscription. *)
Theorem check_updates_scrapes_each_url_once
    (scrape : str -> option (list episode)) (subs : store) :
  requests (check_updates scrape subs).2 = subs.*1
  /\ (check_updates scrape subs).1.1.*1 = subs.*1.
Proof.
  split; [apply check_loop_requests|].
  rewrite check_updates_store. apply tick_item_keys.
Qed.

(** X10: a poll cycle that reads the site through [scrape_episodes] keeps
    the store free of duplicates: no repeated key, no repeated subscriber
    and no repeated known episode id. *)
Theorem check_updates_keeps_store_wf (web : str -> page) (subs : store)
    (Hwf : store_wf subs) :
  store_wf (check_updates (scrape_via web) subs).1.1.
Proof.
  destruct Hwf as [Hkeys Hrec]. rewrite check_updates_store. split.
  - rewrite tick_item_keys. exact Hkeys.
  - intros u d' Hin. apply tick_item_elem in Hin as (d & Hin & ->).
    destruct (Hrec u d Hin) as [Hs Hk].
    destruct (checked_frame d (scrape_via web u)) as (-> & _). split; [exact Hs|].
    destruct (checked_cases d (scrape_via web u))
      as [(-> & _) | [(Ht & _ & _ & -> & _) | (Ht & _ & _ & -> & _)]]; [exact Hk | |];
      (destruct (scrape_via web u) as [found|] eqn:E; [|discriminate]);
      simpl; apply known_NoDup_step;
      [exact Hk | apply (scrape_via_ids_NoDup web u found E)
      | exact Hk | apply (scrape_via_ids_NoDup web u found E)].
Qed.

Lemma check_updates_keeps_store_wf_witness :
  store_wf
    (check_updates
       (scrape_via (fun _ => Document [Anchor (py "/in/shows/x/ep/12345678/watch") []]))
       [(show_url, pending)]).1.1.
Proof.
  apply (check_updates_keeps_store_wf
           (fun _ => Document [Anchor (py "/in/shows/x/ep/12345678/watch") []])
           [(show_url, pending)]).
  split.
  - apply NoDup_singleton.
  - intros u d H. apply list_elem_of_singleton in H. injection H as -> ->.
    split; [apply NoDup_singleton | apply NoDup_nil_2].
Defined.

(** X11: for an initialised subscription whose extraction succeeds, a
    cycle queues exactly one message per pair of a subscriber and a found
    episode whose id was not known: their number is the product of the two
    counts, and each carries the show title, the episode title and the
    episode link. *)
Theorem one_message_per_subscriber_and_new_episode
    (scrape : str -> option (list episode)) (before after : store)
    (url : str) (data : subscription) (found : list episode)
    (Hinit : counts_as_initialized data = true)
    (Hfound : scrape url = Some found) :
  exists mine,
    (check_updates scrape (before ++ (url, data) :: after)).1.2
    = (check_updates scrape before).1.2 ++ mine ++ (check_updates scrape after).1.2
    /\ length mine
       = length (subscribers data) * length (new_episodes (known_episodes data) found)
    /\ forall n, n ∈ mine <->
         exists s e, s ∈ subscribers data /\ e ∈ found
                     /\ (ep_id e ∉ known_episodes data)
                     /\ n = Notification s (title data) (ep_title e) (ep_link e).
Proof.
  exists (notifications_for data (new_episodes (known_episodes data) found)).
  split; [|split].
  - rewrite check_updates_app, check_updates_cons. cbn [fst snd].
    unfold tick_messages. cbn [fst snd]. rewrite Hfound.
    rewrite (notified_initialized data found Hinit). reflexivity.
  - apply notifications_for_length.
  - intros n. rewrite notifications_for_elem. split.
    + intros (s & e & Hs & He & ->). apply new_episodes_elem in He as [He Hk].
      exists s, e. repeat split; assumption.
    + intros (s & e & Hs & He & Hk & ->). exists s, e.
      split; [exact Hs|]. split; [|reflexivity]. apply new_episodes_elem. split; assumption.
Qed.

Lemma one_message_per_subscriber_and_new_episode_witness :
  exists mine,
    (check_updates (fun _ => Some [ep1; ep2; ep3]) [(show_url, caught_up)]).1.2 = mine
    /\ length mine = 2.
Proof.
  destruct (one_message_per_subscriber_and_new_episode
              (fun _ => Some [ep1; ep2; ep3]) [] [] show_url caught_up [ep1; ep2; ep3]
              eq_refl eq_refl) as (mine & Heq & Hlen & _).
  change ((check_updates (fun _ => Some [ep1; ep2; ep3]) []).1.2)
    with (@nil notification) in Heq.
  cbn [app] in Heq. rewrite app_nil_r in Heq.
  exists mine. split; [exact Heq|].
  rewrite Hlen. vm_compute. reflexivity.
Defined.

(** X12: a poll cycle never messages anyone but a subscriber, never about
    an episode whose id was already known, never for a subscription whose
    flag is [False], and never when the extraction failed: every queued
    message comes from a tracked, initialised subscription, one of its
    subscribers and an episode of this cycle's extraction with an unknown
    id. *)
Theorem every_message_is_for_a_subscriber_and_a_new_episode
    (scrape : str -> option (list episode)) (subs : store) (n : notification)
    (Hn : n ∈ (check_updates scrape subs).1.2) :
  exists url data found e,
    (url, data) ∈ subs
    /\ counts_as_initialized data = true
    /\ scrape url = Some found
    /\ e ∈ found
    /\ (ep_id e ∉ known_episodes data)
    /\ chat_id n ∈ subscribers data
    /\ n = Notification (chat_id n) (title data) (ep_title e) (ep_link e).
Proof.
  rewrite check_updates_messages in Hn.
  apply list_elem_of_In, in_flat_map in Hn as ([url data] & Hin & Hn).
  apply list_elem_of_In in Hin, Hn. unfold tick_messages in Hn. cbn [fst snd] in Hn.
  apply notified_elem in Hn as (Hi & found & Hcur & Hn).
  apply notifications_for_elem in Hn as (s & e & Hs & He & ->).
  apply new_episodes_elem in He as [He Hk].
  exists url, data, found, e. repeat split; assumption.
Qed.

Lemma every_message_is_for_a_subscriber_and_a_new_episode_witness :
  exists e, e ∈ [ep1; ep2; ep3] /\ ep_id e ∉ known_episodes caught_up.
Proof.
  destruct (every_message_is_for_a_subscriber_and_a_new_episode
              (fun _ => Some [ep1; ep2; ep3]) [(show_url, caught_up)]
              (Notification (py "7") (py "Bhargavi Ll B") (py "Three") (ep_link ep3)))
    as (url & data & found & e & Hin & _ & Hfound & He & Hk & _).
  - vm_compute. apply list_elem_of_here.
  - apply list_elem_of_singleton in Hin. injection Hin as _ <-.
    injection Hfound as <-. exists e. split; assumption.
Defined.

(** X13: after a poll cycle every id that the extraction found for a
    subscription is among its known episodes, whether or not a message was
    sent for it. *)
Theorem found_ids_become_known
    (scrape : str -> option (list episode)) (subs : store)
    (url : str) (data : subscription) (found : list episode)
    (Hsub : get_sub url subs = Some data)
    (Hfound : scrape url = Some found) :
  exists data',
    get_sub url (check_updates scrape subs).1.1 = Some data'
    /\ forall e, e ∈ found -> ep_id e ∈ known_episodes data'.
Proof.
  exists (checked data (Some found)). split.
  - rewrite check_updates_store, get_sub_tick, Hsub, Hfound. reflexivity.
  - intros e He. apply checked_absorbs, He.
Qed.

Lemma found_ids_become_known_witness :
  exists data',
    get_sub show_url (check_updates (fun _ => Some [ep3]) [(show_url, pending)]).1.1
    = Some data'
    /\ ep_id ep3 ∈ known_episodes data'.
Proof.
  destruct (found_ids_become_known (fun _ => Some [ep3]) [(show_url, pending)]
              show_url pending [ep3]) as (data' & Hget & Hall).
  - vm_compute. reflexivity.
  - reflexivity.
  - exists data'. split; [exact Hget | apply Hall, list_elem_of_here].
Defined.

(** X14: the flag is never taken back: a subscription that counts as
    initialised keeps its [initialized] field over any sequence of poll
    cycles, whatever the extractions return. *)
Theorem initialized_is_never_reset
    (scrapes : list (str -> option (list episode))) (subs : store)
    (url : str) (data : subscription)
    (Hsub : get_sub url subs = Some data)
    (Hinit : counts_as_initialized data = true) :
  exists data',
    get_sub url (run_ticks scrapes subs) = Some data'
    /\ initialized data' = initialized data
    /\ counts_as_initialized data' = true.
Proof.
  revert subs data Hsub Hinit.
  induction scrapes as [|scrape later IH]; intros subs data Hsub Hinit.
  - exists data. repeat split; assumption.
  - simpl. rewrite check_updates_store.
    pose proof (checked_flag_kept data (scrape url) Hinit) as Hkept.
    destruct (IH (map (tick_item scrape) subs) (checked data (scrape url)))
      as (data' & Hget & Hflag & Hc).
    + rewrite get_sub_tick, Hsub. reflexivity.
    + unfold counts_as_initialized in *. rewrite Hkept. exact Hinit.
    + exists data'. split; [exact Hget|]. split; [congruence | exact Hc].
Qed.

Lemma initialized_is_never_reset_witness :
  exists data',
    get_sub show_url
      (run_ticks [fun _ => None; fun _ => Some [ep3]; fun _ => Some []]
                 [(show_url, caught_up)]) = Some data'
    /\ initialized data' = Some true.
Proof.
  destruct (initialized_is_never_reset
              [fun _ => None; fun _ => Some [ep3]; fun _ => Some []]
              [(show_url, caught_up)] show_url caught_up) as (data' & Hget & Hflag & _).
  - vm_compute. reflexivity.
  - reflexivity.
  - exists data'. split; [exact Hget | exact Hflag].
Defined.

(** ** The chat front end *)

Section FrontEnd.

Implicit Types (movie_list : list str) (real_dict : details_dict).

Lemma str_of_nat_inj n m : str_of_nat n = str_of_nat m -> n = m.
Proof.
  unfold str_of_nat, py. intros H.
  apply (f_equal string_of_list_ascii) in H.
  rewrite !string_of_list_ascii_of_string in H.
  apply (f_equal NilEmpty.uint_of_string) in H. rewrite !NilEmpty.usu in H.
  injection H as H. apply (f_equal Nat.of_uint) in H.
  rewrite !DecimalNat.Unsigned.of_to in H. exact H.
Qed.

Lemma enumerate_from_lookup {A} (l : list A) start i :
  enumerate_from start l !! i = (fun x => (start + i, x)) <$> l !! i.
Proof.
  revert start i. induction l as [|x l IH]; intros start i; [reflexivity|].
  destruct i as [|i]; simpl.
  - rewrite Nat.add_0_r. reflexivity.
  - rewrite IH. replace (S start + i) with (start + S i) by lia. reflexivity.
Qed.

Lemma enumerate_from_length {A} (l : list A) start :
  length (enumerate_from start l) = length l.
Proof. revert start. induction l as [|x l IH]; intros start; simpl; [|rewrite IH]; reflexivity. Qed.

(** A [call.data] that is no index of the list matches no button. *)
Lemma callback_no_match real_dict data movie_list start :
  (forall key, start <= key < start + length movie_list -> data <> str_of_nat key) ->
  flat_map (fun '(key, value) =>
              if decide (data = str_of_nat key) then
                match dict_get value real_dict with
                | Some messages => messages
                | None => []
                end
              else [])
           (enumerate_from start movie_list) = [].
Proof.
  revert start. induction movie_list as [|v l IH]; intros start H; [reflexivity|].
  simpl. rewrite decide_False by (apply H; simpl; lia).
  apply IH. intros key Hkey. apply H. simpl. lia.
Qed.

Lemma callback_match real_dict movie_list start i value :
  movie_list !! i = Some value ->
  flat_map (fun '(key, value) =>
              if decide (str_of_nat (start + i) = str_of_nat key) then
                match dict_get value real_dict with
                | Some messages => messages
                | None => []
                end
              else [])
           (enumerate_from start movie_list)
  = default [] (dict_get value real_dict).
Proof.
  revert start i. induction movie_list as [|v l IH]; intros start i Hi; [discriminate|].
  destruct i as [|i]; simpl.
  - injection Hi as ->. rewrite Nat.add_0_r, decide_True by reflexivity.
    rewrite callback_no_match.
    + rewrite app_nil_r. destruct (dict_get value real_dict); reflexivity.
    + intros key Hkey E. apply str_of_nat_inj in E. lia.
  - rewrite decide_False by (intros E; apply str_of_nat_inj in E; lia).
    replace (start + S i) with (S start + i) by lia. apply IH, Hi.
Qed.

Lemma dict_get_put_eq k v real_dict : dict_get k (dict_put k v real_dict) = Some v.
Proof.
  induction real_dict as [|[k0 v0] d IH]; simpl.
  - rewrite decide_True by reflexivity. reflexivity.
  - destruct (decide (k0 = k)) as [-> | Hne]; simpl.
    + rewrite decide_True by reflexivity. reflexivity.
    + rewrite decide_False by exact Hne. exact IH.
Qed.

Lemma dict_get_put_ne k k' v real_dict :
  k' <> k -> dict_get k' (dict_put k v real_dict) = dict_get k' real_dict.
Proof.
  intros Hk. induction real_dict as [|[k0 v0] d IH]; simpl.
  - rewrite decide_False by congruence. reflexivity.
  - destruct (decide (k0 = k)) as [-> | Hne]; simpl.
    + rewrite !decide_False by congruence. reflexivity.
    + rewrite IH. reflexivity.
Qed.

Lemma dict_get_fold_other (details : str -> list str) (entries : list (str * str))
    real_dict k :
  k ∉ entries.*1 ->
  dict_get k (fold_left (fun d e => dict_put e.1 (details e.2) d) entries real_dict)
  = dict_get k real_dict.
Proof.
  revert real_dict. induction entries as [|[t link] entries IH]; intros real_dict Hk;
    [reflexivity|].
  rewrite fmap_cons in Hk. cbn [fst] in Hk. apply not_elem_of_cons in Hk as [Hne Hk].
  cbn [fold_left fst snd]. rewrite (IH _ Hk). apply dict_get_put_ne, Hne.
Qed.

(** The entry that a title ends up with is the one put last. *)
Lemma dict_get_fold_last (details : str -> list str) (entries : list (str * str))
    real_dict earlier title link later :
  entries = earlier ++ (title, link) :: later ->
  title ∉ later.*1 ->
  dict_get title (fold_left (fun d e => dict_put e.1 (details e.2) d) entries real_dict)
  = Some (details link).
Proof.
  intros -> Hlater. rewrite fold_left_app. cbn [fold_left fst snd].
  rewrite (dict_get_fold_other details later _ title Hlater). apply dict_get_put_eq.
Qed.

Lemma last_entry (entries : list (str * str)) title :
  title ∈ entries.*1 ->
  exists earlier link later,
    entries = earlier ++ (title, link) :: later /\ title ∉ later.*1.
Proof.
  induction entries as [|[t l] entries IH]; intros Hin.
  - apply elem_of_nil in Hin. contradiction.
  - destruct (decide (title ∈ entries.*1)) as [Hl | Hl].
    + destruct (IH Hl) as (earlier & link & later & -> & Hlater).
      exists ((t, l) :: earlier), link, later. split; [reflexivity | exact Hlater].
    + rewrite fmap_cons in Hin. cbn [fst] in Hin.
      apply elem_of_cons in Hin as [-> | Hin]; [|contradiction].
      exists [], l, entries. split; [reflexivity | exact Hl].
Qed.

Lemma tamilmv_loop_Some details blocks entries movie_list real_dict :
  Forall2 (fun block e => listing_entry block = Some e) blocks entries ->
  tamilmv_loop details blocks movie_list real_dict
  = Some (movie_list ++ entries.*1,
          fold_left (fun d e => dict_put e.1 (details e.2) d) entries real_dict).
Proof.
  intros H. revert movie_list real_dict.
  induction H as [|block [title link] blocks entries Hb _ IH]; intros movie_list real_dict.
  - simpl. rewrite app_nil_r. reflexivity.
  - cbn [tamilmv_loop]. rewrite Hb, IH, fmap_cons, <- app_assoc. reflexivity.
Qed.

Lemma tamilmv_loop_inv details blocks movie_list real_dict result :
  tamilmv_loop details blocks movie_list real_dict = Some result ->
  exists entries, Forall2 (fun block e => listing_entry block = Some e) blocks entries.
Proof.
  revert movie_list real_dict. induction blocks as [|block blocks IH];
    intros movie_list real_dict H.
  - exists []. constructor.
  - cbn [tamilmv_loop] in H. destruct (listing_entry block) as [[title link]|] eqn:E;
      [|discriminate].
    destruct (IH _ _ H) as [entries Hentries].
    exists ((title, link) :: entries). constructor; assumption.
Qed.

Lemma tamilmv_loop_None details blocks movie_list real_dict :
  Exists (fun block => listing_entry block = None) blocks ->
  tamilmv_loop details blocks movie_list real_dict = None.
Proof.
  intros H. revert movie_list real_dict.
  induction H as [block blocks Hb | block blocks _ IH]; intros movie_list real_dict;
    cbn [tamilmv_loop].
  - rewrite Hb. reflexivity.
  - destruct (listing_entry block) as [[title link]|]; [apply IH | reflexivity].
Qed.

Lemma substring_in_4 (a b c m d : str) : substring m (a ++ b ++ c ++ m ++ d).
Proof. exists (a ++ b ++ c), d. rewrite <- !app_assoc. reflexivity. Qed.

Lemma substring_in_6 (a b c d e m f : str) :
  substring m (a ++ b ++ c ++ d ++ e ++ m ++ f).
Proof. exists (a ++ b ++ c ++ d ++ e), f. rewrite <- !app_assoc. reflexivity. Qed.


End FrontEnd.

(** X15: pressing the button that [makeKeyboard] made for the movie at
    position [k] sends exactly the messages stored under that movie's
    title, and nothing when the title has no entry. *)
Theorem pressed_button_sends_its_details
    (movie_list : list str) (real_dict : details_dict) (k : nat) (value : str)
    (Hk : movie_list !! k = Some value) :
  exists b,
    makeKeyboard movie_list !! k = Some b
    /\ caption b = value
    /\ callback_query movie_list real_dict (callback_data b)
       = default [] (dict_get value real_dict).
Proof.
  exists (Button value (str_of_nat k)). split; [|split; [reflexivity|]].
  - unfold makeKeyboard. rewrite list_lookup_fmap, enumerate_from_lookup, Hk. reflexivity.
  - unfold callback_query. cbn [callback_data].
    apply (callback_match real_dict movie_list 0 k value Hk).
Qed.

Lemma pressed_button_sends_its_details_witness :
  exists b,
    makeKeyboard [py "A"; py "B"] !! 1 = Some b
    /\ callback_query [py "A"; py "B"] [(py "A", [py "a1"]); (py "B", [py "b1"; py "b2"])]
         (callback_data b) = [py "b1"; py "b2"].
Proof.
  destruct (pressed_button_sends_its_details [py "A"; py "B"]
              [(py "A", [py "a1"]); (py "B", [py "b1"; py "b2"])] 1 (py "B") eq_refl)
    as (b & Hb & _ & Hsend).
  exists b. split; [exact Hb | exact Hsend].
Defined.

(** X16: a callback whose data is not the index of a listed movie sends
    nothing; in particular nothing is sent before the first listing. *)
Theorem foreign_callback_sends_nothing
    (movie_list : list str) (real_dict : details_dict) (data : str)
    (Hdata : forall key, key < length movie_list -> data <> str_of_nat key) :
  callback_query movie_list real_dict data = [].
Proof.
  unfold callback_query. apply callback_no_match.
  intros key Hkey. apply Hdata. lia.
Qed.

Lemma foreign_callback_sends_nothing_witness :
  callback_query [py "A"; py "B"] [(py "A", [py "a1"]); (py "B", [py "b1"])] (py "2") = [].
Proof.
  apply (foreign_callback_sends_nothing [py "A"; py "B"]
           [(py "A", [py "a1"]); (py "B", [py "b1"])] (py "2")).
  intros key Hkey E. destruct key as [|[|key]]; [discriminate E | discriminate E|].
  simpl in Hkey. lia.
Defined.

(** X17: [tamilmv] is all or nothing.  A fault, a page with fewer than 15
    blocks, or a block among the first 15 without an anchor or without an
    [href] gives the empty list and the empty dict; otherwise the list has
    exactly 15 titles and every one of them has an entry in the dict. *)
Theorem tamilmv_all_or_nothing (details : str -> list str) :
  tamilmv details ListingFault = ([], [])
  /\ (forall temps,
        length temps < 15
        \/ Exists (fun block => listing_entry block = None) (take 15 temps) ->
        tamilmv details (Listing temps) = ([], []))
  /\ (forall page,
        tamilmv details page = ([], [])
        \/ (length (tamilmv details page).1 = 15
            /\ forall title, title ∈ (tamilmv details page).1 ->
                 is_Some (dict_get title (tamilmv details page).2))).
Proof.
  split; [reflexivity|]. split.
  - intros temps [Hlen | Hbad]; unfold tamilmv.
    + apply Nat.ltb_lt in Hlen. rewrite Hlen. reflexivity.
    + destruct (length temps <? 15); [reflexivity|].
      rewrite (tamilmv_loop_None details _ [] [] Hbad). reflexivity.
  - intros [|temps]; [left; reflexivity|]. unfold tamilmv.
    destruct (length temps <? 15) eqn:Hlen; [left; reflexivity|].
    apply Nat.ltb_ge in Hlen.
    destruct (tamilmv_loop details (take 15 temps) [] []) as [result|] eqn:Hloop;
      [right | left; reflexivity].
    destruct (tamilmv_loop_inv _ _ _ _ _ Hloop) as [entries Hentries].
    rewrite (tamilmv_loop_Some details _ entries [] [] Hentries) in Hloop.
    injection Hloop as <-. cbn [fst snd app]. split.
    + rewrite length_fmap. rewrite <- (Forall2_length _ _ _ Hentries), length_take. lia.
    + intros title Htitle.
      destruct (last_entry entries title Htitle) as (earlier & link & later & Heq & Hlater).
      rewrite (dict_get_fold_last details entries [] earlier title link later Heq Hlater).
      eexists. reflexivity.
Qed.


(** X19: [get_movie_details] returns one message per magnet link of the
    page, in page order, and none on a fault; the message at position [p]
    contains the magnet link at position [p], and says that no torrent
    file is available when the page has no torrent link at that position. *)
Theorem one_message_per_magnet (base : str) (anchors : list detail_anchor)
    (h1 : option str) :
  let mag := map da_href
               (filter (fun a => contains (py "magnet:") (da_href a) = true) anchors) in
  let filelink := map da_href
                    (filter (fun a => da_fileext a = Some (py "torrent")) anchors) in
  get_movie_details base DetailFault = []
  /\ length (get_movie_details base (DetailDoc anchors h1)) = length mag
  /\ forall p m, mag !! p = Some m ->
       exists message,
         get_movie_details base (DetailDoc anchors h1) !! p = Some message
         /\ substring m message
         /\ (length filelink <= p ->
             substring (py "Torrent File:</b> Not Available") message).
Proof.
  intros mag filelink. split; [reflexivity|]. split.
  - unfold get_movie_details. rewrite length_map, enumerate_from_length. reflexivity.
  - intros p m Hp. eexists. split; [|split].
    + unfold get_movie_details. fold mag. fold filelink.
      rewrite list_lookup_fmap, enumerate_from_lookup, Hp. reflexivity.
    + match goal with
      | |- substring m (movie_message ?t m ?tor) =>
          exact (substring_in_4
                   (newline :: py "<b>📂 Movie Title:</b>" ++ newline :: py "<blockquote>")
                   t
                   (py "</blockquote>" ++ newline :: newline
                      :: py "🧲 <b>Magnet Link:</b>" ++ newline :: py "<pre>")
                   m _)
      end.
    + intros Hshort. unfold torrent_for. cbn [Nat.add].
      rewrite (lookup_ge_None_2 filelink p Hshort).
      match goal with
      | |- substring _ (movie_message ?t m None) =>
          exact (substring_in_6
                   (newline :: py "<b>📂 Movie Title:</b>" ++ newline :: py "<blockquote>")
                   t
                   (py "</blockquote>" ++ newline :: newline
                      :: py "🧲 <b>Magnet Link:</b>" ++ newline :: py "<pre>")
                   m
                   (py "</pre>" ++ newline :: newline :: py "📥 <b>")
                   (py "Torrent File:</b> Not Available")
                   [newline])
      end.
Qed.






(** ** Titles and the first poll after subscribing *)


Lemma add_show_untracked (scrape : str -> option (list episode)) (now : timestamp)
    (chat url : str) (subs : store) :
  contains (py "hotstar.com") url = true ->
  get_sub url subs = None ->
  exists d,
    (add_show scrape now chat url subs).1.2 = subs ++ [(url, d)]
    /\ match scrape url with
       | None => known_episodes d = [] /\ initialized d = Some false
       | Some found => known_episodes d = map ep_id found /\ initialized d = Some true
       end.
Proof.
  intros Hvalid Hnew. unfold add_show. rewrite Hvalid, Hnew. cbn [negb fst snd].
  eexists. split; [reflexivity|]. destruct (scrape url); split; reflexivity.
Qed.


(** X23: subscribing does not lead to a burst of messages.  For a valid
    untracked URL, the poll cycle that follows [add_show] queues nothing
    for the new subscription when the site is unchanged since the seed
    scrape, and, when the seed scrape failed, whatever the site returns. *)
Theorem first_poll_after_subscribing_is_silent
    (scrape scrape' : str -> option (list episode)) (now : timestamp)
    (chat url : str) (subs : store)
    (Hvalid : contains (py "hotstar.com") url = true)
    (Hnew : get_sub url subs = None) :
  let s1 := (add_show scrape now chat url subs).1.2 in
  (check_updates scrape s1).1.2 = (check_updates scrape subs).1.2
  /\ (scrape url = None ->
      (check_updates scrape' s1).1.2 = (check_updates scrape' subs).1.2).
Proof.
  intros s1.
  destruct (add_show_untracked scrape now chat url subs Hvalid Hnew)
    as (d & Hs1 & Hseed).
  fold s1 in Hs1. rewrite Hs1.
  assert (Hsplit : forall sc,
             (check_updates sc (subs ++ [(url, d)])).1.2
             = (check_updates sc subs).1.2 ++ notified d (sc url)).
  { intros sc. rewrite check_updates_app, check_updates_cons. cbn [fst snd].
    unfold tick_messages. cbn [fst snd].
    change ((check_updates sc []).1.2) with (@nil notification).
    rewrite app_nil_r. reflexivity. }
  rewrite !Hsplit. split.
  - destruct (scrape url) as [found|] eqn:E.
    + destruct Hseed as [Hk Hi].
      rewrite notified_initialized by (rewrite Hi; reflexivity).
      rewrite Hk, new_episodes_nil, notifications_for_nil, app_nil_r; [reflexivity|].
      intros e He. apply list_elem_of_fmap. exists e. split; [reflexivity | exact He].
    + rewrite notified_skip by reflexivity. rewrite app_nil_r. reflexivity.
  - intros E. rewrite E in Hseed. destruct Hseed as [_ Hi].
    rewrite (notified_uninitialized d (scrape' url) Hi), app_nil_r. reflexivity.
Qed.

Lemma first_poll_after_subscribing_is_silent_witness :
  (check_updates (fun _ => Some [ep1; ep2])
     (add_show (fun _ => Some [ep1; ep2]) 0%Z (py "7") show_url []).1.2).1.2 = [].
Proof.
  destruct (first_poll_after_subscribing_is_silent
              (fun _ => Some [ep1; ep2]) (fun _ => None) 0%Z (py "7") show_url [])
    as [Hsame _].
  - vm_compute. reflexivity.
  - reflexivity.
  - exact Hsame.
Defined.
